(** * ChromaDB -> SQLite migration: a shallow embedding and its properties

    The development follows [memory-mcp/scripts/migrate_chroma_to_sqlite.py]
    and [memory-mcp/src/memory_mcp/embedding.py].

    - Python floats are IEEE binary64 numbers: primitive floats.
    - Python ints are unbounded: [Z].
    - Strings are byte strings; the answer typed at the prompt is taken
      to be ASCII.
    - A metadata mapping is a [gmap string pyval]; the set
      [memory_ids_in_dest] is a [gset string].
    - A destination table is a list of rows keyed by its primary key;
      [INSERT OR IGNORE] appends a row unless the key is already there.
      Other storage-layer checks (NOT NULL, CHECK, foreign keys) and the
      binding of Python values to SQL values are outside the model.
    - Exceptions are values of [exn]; code that mutates state inside
      [try] blocks runs in a small state-and-exception monad in which the
      state survives a raise, as it does in Python. Only the exceptions
      the script's own expressions raise are modelled: the collaborators
      (the model, the normalizer, the codec) are total functions. *)

From Stdlib Require Import ZArith List String Ascii Bool Lia Floats.
From stdpp Require Import base option list gmap sets strings.

Set Warnings "-register-all,-clear-no-such-hyp,-inexact-float".
Local Open Scope Z_scope.

(** ** Exceptions *)

Inductive exn : Type :=
  | TypeError | ValueError | OverflowError | JSONDecodeError | ImportError.

(** [isinstance e cls]: [json.JSONDecodeError] derives from [ValueError]. *)
Definition exn_isa (e cls : exn) : bool :=
  match e, cls with
  | TypeError, TypeError | ValueError, ValueError
  | OverflowError, OverflowError | JSONDecodeError, JSONDecodeError
  | ImportError, ImportError => true
  | JSONDecodeError, ValueError => true
  | _, _ => false
  end.

Definition caught_by (e : exn) (classes : list exn) : bool :=
  existsb (exn_isa e) classes.

Inductive result (A : Type) : Type :=
  | Ok (a : A)
  | Raise (e : exn).
Arguments Ok {A} a.
Arguments Raise {A} e.

Definition rbind {A B} (r : result A) (k : A -> result B) : result B :=
  match r with Ok a => k a | Raise e => Raise e end.

Definition rmap {A B} (f : A -> B) (r : result A) : result B :=
  rbind r (fun a => Ok (f a)).

(** ** State that survives a raise *)

Module St.
Definition M (S A : Type) : Type := S -> S * result A.

Definition ret {S A} (a : A) : M S A := fun s => (s, Ok a).
Definition raise {S A} (e : exn) : M S A := fun s => (s, Raise e).
Definition lift {S A} (r : result A) : M S A := fun s => (s, r).
Definition modify {S} (f : S -> S) : M S unit := fun s => (f s, Ok tt).
Definition bind {S A B} (m : M S A) (k : A -> M S B) : M S B :=
  fun s => match m s with
           | (s', Ok a) => k a s'
           | (s', Raise e) => (s', Raise e)
           end.

(** [try: m except classes: h] *)
Definition try_except {S A} (m : M S A) (classes : list exn)
    (h : exn -> M S A) : M S A :=
  fun s => match m s with
           | (s', Raise e) =>
               if caught_by e classes then h e s' else (s', Raise e)
           | r => r
           end.

(** [try: m except Exception as e: h e] *)
Definition try_except_all {S A} (m : M S A) (h : exn -> M S A) : M S A :=
  fun s => match m s with
           | (s', Raise e) => h e s'
           | r => r
           end.

(** [for x in l: body x] *)
Fixpoint for_each {S A} (l : list A) (body : A -> M S unit) : M S unit :=
  match l with
  | [] => ret tt
  | x :: l' => bind (body x) (fun _ => for_each l' body)
  end.
End St.

(** ** Python values held by the source metadata *)

(** [_read_chroma_collection] stores [string_value], [int_value] or
    [float_value] under a key, never [None]. *)
Inductive pyval : Type :=
  | PStr (s : string)
  | PInt (z : Z)
  | PFloat (f : float).

(** Truth value: the empty string, [0] and [0.0] (also [-0.0]) are falsy. *)
Definition truthy (v : pyval) : bool :=
  match v with
  | PStr s => negb (String.eqb s "")
  | PInt z => negb (z =? 0)
  | PFloat f => negb (PrimFloat.eqb f 0%float)
  end.

(** [a or b] *)
Definition py_or (a b : pyval) : pyval := if truthy a then a else b.

(** [x or None] *)
Definition or_None (x : option pyval) : option pyval :=
  match x with
  | Some v => if truthy v then Some v else None
  | None => None
  end.

(** ** Floats *)

(** [min(a, b)] on two floats: the first argument is kept unless the
    second compares strictly below it. *)
Definition py_min2 (a b : float) : float := if PrimFloat.ltb b a then b else a.

(** [max(a, b)]: the first argument is kept unless the second compares
    strictly above it. *)
Definition py_max2 (a b : float) : float := if PrimFloat.ltb a b then b else a.

(** [max(0.0, min(1.0, w))] *)
Definition clamp01 (w : float) : float :=
  py_max2 0%float (py_min2 1%float w).

Definition neg_zero : float := (-0)%float.

(** [float(z)] for an int: nearest binary64, ties to even;
    [OverflowError] when the int is too large. *)
Definition float_of_Z (z : Z) : result float :=
  match binary_normalize prec emax z 0 false with
  | S754_infinity _ => Raise OverflowError
  | sf => Ok (SF2Prim sf)
  end.

(** [int(f)] for a float: truncation towards zero; [ValueError] on NaN,
    [OverflowError] on an infinity. *)
Definition Z_of_float (f : float) : result Z :=
  match Prim2SF f with
  | S754_nan => Raise ValueError
  | S754_infinity _ => Raise OverflowError
  | S754_zero _ => Ok 0
  | S754_finite s m e =>
      let a := if 0 <=? e then Z.pos m * 2 ^ e else Z.pos m / 2 ^ (- e) in
      Ok (if s then - a else a)
  end.

(** ** JSON values, as [json.loads] returns them *)

Inductive json : Type :=
  | JNull
  | JBool (b : bool)
  | JInt (z : Z)
  | JFloat (f : float)
  | JStr (s : string)
  | JArr (l : list json)
  | JObj (items : list (string * json)).

(** ** Collaborators outside the script

    Python built-ins on strings, [json.loads], the repository's
    [normalize_japanese] and [MemoryConfig], the sentence-transformers
    model and numpy's cast to [float32] are taken as given. *)

Record externals : Type := {
  (** [int(s)] on a string; [None] is [ValueError] *)
  int_of_str : string -> option Z;
  (** [float(s)] on a string; [None] is [ValueError] *)
  float_of_str : string -> option float;
  (** [json.loads(s)]; [None] is [json.JSONDecodeError] *)
  json_loads : string -> option json;
  (** [memory_mcp.normalizer.normalize_japanese] *)
  normalize_japanese : string -> string;
  (** [str(z)] and [str(f)], as an f-string formats them *)
  str_of_int : Z -> string;
  str_of_float : float -> string;
  (** [config.embedding_model] *)
  embedding_model : string;
  (** [model.encode(texts, normalize_embeddings=True).tolist()] of the
      model of a given name *)
  model_encode : string -> list string -> list (list float);
  (** [np.array(., dtype=np.float32)] on one component: the bit pattern
      of the nearest single-precision float *)
  np_float32 : float -> Z
}.

Section Coercions.
Variable X : externals.

(** [int(v)] *)
Definition py_int (v : pyval) : result Z :=
  match v with
  | PInt z => Ok z
  | PFloat f => Z_of_float f
  | PStr s => match int_of_str X s with
              | Some z => Ok z
              | None => Raise ValueError
              end
  end.

(** [float(v)] *)
Definition py_float (v : pyval) : result float :=
  match v with
  | PFloat f => Ok f
  | PInt z => float_of_Z z
  | PStr s => match float_of_str X s with
              | Some f => Ok f
              | None => Raise ValueError
              end
  end.

(** [float(weight)] on a value of a parsed JSON object. *)
Definition json_float (j : json) : result float :=
  match j with
  | JNull => Raise TypeError
  | JBool b => Ok (if b then 1%float else 0%float)
  | JInt z => float_of_Z z
  | JFloat f => Ok f
  | JStr s => match float_of_str X s with
              | Some f => Ok f
              | None => Raise ValueError
              end
  | JArr _ => Raise TypeError
  | JObj _ => Raise TypeError
  end.

(** [f"{v}"] *)
Definition format_value (v : pyval) : string :=
  match v with
  | PStr s => s
  | PInt z => str_of_int X z
  | PFloat f => str_of_float X f
  end.
End Coercions.

(** ** The source store and [_read_chroma_collection] *)

Record chroma_db : Type := {
  (** [collections(name, id)] *)
  collections : list (string * string);
  (** [segments(id, collection, scope)] *)
  segments : list (string * string * string);
  (** [embeddings(id, segment_id, embedding_id)] *)
  chroma_embeddings : list (Z * string * string);
  (** [embedding_metadata(id, key, string_value, int_value, float_value)] *)
  embedding_metadata :
    list (Z * string * option string * option Z * option float)
}.

(** One raw record: [{"id": ., "document": ., "metadata": .}] *)
Record record : Type := {
  rec_id : string;
  rec_document : string;
  rec_metadata : gmap string pyval
}.

Definition meta_row : Type :=
  (Z * string * option string * option Z * option float)%type.

(** The inner loop over [meta_rows]. *)
Definition read_meta_row (acc : gmap string pyval * string) (r : meta_row)
    : gmap string pyval * string :=
  let '(metadata, document) := acc in
  let '(_, key, str_val, int_val, float_val) := r in
  if String.eqb key "chroma:document" then
    (metadata, default ""%string str_val)
  else match str_val, int_val, float_val with
       | Some s, _, _ => (<[key := PStr s]> metadata, document)
       | None, Some z, _ => (<[key := PInt z]> metadata, document)
       | None, None, Some f => (<[key := PFloat f]> metadata, document)
       | None, None, None => (metadata, document)
       end.

Definition _read_chroma_collection (c : chroma_db) (collection_name : string)
    : list record :=
  match List.find (fun r => String.eqb (fst r) collection_name)
                  (collections c) with
  | None => []
  | Some (_, collection_id) =>
      match List.find (fun s => let '(_, col, scope) := s in
                         String.eqb col collection_id
                         && String.eqb scope "METADATA")
                      (segments c) with
      | None => []
      | Some (segment_id, _, _) =>
          let emb_rows :=
            List.filter (fun e => let '(_, seg, _) := e in
                                  String.eqb seg segment_id)
                        (chroma_embeddings c) in
          List.map
            (fun e =>
               let '(row_id, _, embedding_id) := e in
               let meta_rows :=
                 List.filter (fun r => let '(i, _, _, _, _) := r in
                                       i =? row_id)
                             (embedding_metadata c) in
               let '(metadata, document) :=
                 fold_left read_meta_row meta_rows (∅, ""%string) in
               {| rec_id := embedding_id;
                  rec_document := document;
                  rec_metadata := metadata |})
            emb_rows
      end
  end.

(** ** The destination store *)

(** A table: rows in insertion order, each under its primary key. *)
Definition table (K V : Type) : Type := list (K * V).

Section Table.
Context {K V : Type} `{EqDecision K}.

Definition has_key (k : K) (t : table K V) : bool :=
  existsb (fun r => bool_decide (fst r = k)) t.

Fixpoint row_of (k : K) (t : table K V) : option V :=
  match t with
  | [] => None
  | (k', v) :: t' => if bool_decide (k' = k) then Some v else row_of k t'
  end.

(** [INSERT OR IGNORE]: a row whose key is present is left alone. *)
Definition insert_or_ignore (k : K) (v : V) (t : table K V) : table K V :=
  if has_key k t then t else t ++ [(k, v)].

Definition insert_all (rows : list (K * V)) (t : table K V) : table K V :=
  fold_left (fun t r => insert_or_ignore (fst r) (snd r) t) rows t.
End Table.

(** A row of [memories], without its key. *)
Record memory_row : Type := {
  content : pyval;
  normalized_content : string;
  timestamp : pyval;
  emotion : pyval;
  importance : Z;
  category : pyval;
  access_count : Z;
  last_accessed : pyval;
  linked_ids : pyval;
  episode_id : option pyval;
  sensory_data : pyval;
  camera_position : option pyval;
  tags : pyval;
  links : pyval;
  novelty_score : float;
  prediction_error : float;
  activation_count : Z;
  last_activated : pyval;
  reading : option pyval
}.

(** A row of [episodes], without its key. *)
Record episode_row : Type := {
  ep_title : pyval;
  ep_start_time : pyval;
  ep_end_time : option pyval;
  ep_memory_ids : pyval;
  ep_participants : pyval;
  ep_location_context : option pyval;
  ep_summary : string;
  ep_emotion : pyval;
  ep_importance : Z
}.

Record dest_db : Type := {
  memories : table string memory_row;
  embeddings : table string (list Byte.byte);
  coactivation : table (string * string) float;
  episodes : table string episode_row
}.

Definition empty_db : dest_db :=
  {| memories := []; embeddings := []; coactivation := []; episodes := [] |}.

(** ** The vector codec *)

Module Vector.
(** A single-precision float is identified with its 32-bit pattern,
    so that signed zeros, denormals and NaN payloads stay apart. *)
Definition is_f32 (w : Z) : Prop := 0 <= w < 2 ^ 32.

Definition byte_of_Z (z : Z) : Byte.byte :=
  match Byte.of_N (Z.to_N (Z.land z 255)) with
  | Some b => b
  | None => Byte.x00
  end.

Definition Z_of_byte (b : Byte.byte) : Z := Z.of_N (Byte.to_N b).

(** Modelled from the spec: the four bytes of one float of
    [memory_mcp/vector.py]'s blob, least significant first
    ("little-endian"). *)
Definition encode_f32 (w : Z) : list Byte.byte :=
  [ byte_of_Z w; byte_of_Z (Z.shiftr w 8);
    byte_of_Z (Z.shiftr w 16); byte_of_Z (Z.shiftr w 24) ].

(** Modelled from the spec: the float of four bytes of
    [memory_mcp/vector.py]'s blob. *)
Definition decode_f32 (b0 b1 b2 b3 : Byte.byte) : Z :=
  Z.lor (Z_of_byte b0)
    (Z.lor (Z.shiftl (Z_of_byte b1) 8)
       (Z.lor (Z.shiftl (Z_of_byte b2) 16) (Z.shiftl (Z_of_byte b3) 24))).

(** Modelled from the spec: [memory_mcp/vector.py] is not among the
    sources. "A vector of N IEEE-754 single-precision floats is encoded
    as a contiguous little-endian byte blob of length 4*N." *)
Definition encode_vector (v : list Z) : list Byte.byte :=
  List.concat (List.map encode_f32 v).

(** Modelled from the spec: [memory_mcp/vector.py] is not among the
    sources. "Decoding must recover bit-identical floats." The spec is
    silent on blobs whose length is not a multiple of four; they are
    refused here. *)
Fixpoint decode_vector (bs : list Byte.byte) : option (list Z) :=
  match bs with
  | [] => Some []
  | b0 :: b1 :: b2 :: b3 :: rest =>
      match decode_vector rest with
      | Some v => Some (decode_f32 b0 b1 b2 b3 :: v)
      | None => None
      end
  | _ => None
  end.
End Vector.

(** ** [E5EmbeddingFunction] *)

Module E5.
Section E5.
Variable X : externals.
(** whether [from sentence_transformers import SentenceTransformer]
    succeeds *)
Variable sentence_transformers_importable : bool.

(** The class-level [_model_cache], by the names of the models it
    holds; the model of a name behaves as [model_encode X name].
    Loading fails only when the import does. *)
Definition _load_model (model_name : string) : St.M (gset string) unit :=
  fun cache =>
    if bool_decide (model_name ∈ cache) then (cache, Ok tt)
    else if sentence_transformers_importable
         then ({[model_name]} ∪ cache, Ok tt)
         else (cache, Raise ImportError).

(** [__call__]: the passage prefix. *)
Definition call (model_name : string) (input : list pyval)
    : St.M (gset string) (list (list float)) :=
  St.bind (_load_model model_name) (fun _ =>
    let prefixed :=
      List.map (fun doc => ("passage: " ++ format_value X doc)%string)
               input in
    St.ret (model_encode X model_name prefixed)).

(** [encode_query]: the query prefix. *)
Definition encode_query (model_name : string) (texts : list string)
    : St.M (gset string) (list (list float)) :=
  St.bind (_load_model model_name) (fun _ =>
    let prefixed := List.map (fun t => ("query: " ++ t)%string) texts in
    St.ret (model_encode X model_name prefixed)).
End E5.
End E5.

(** ** Strings typed at the prompt *)

(** [str.isspace] on the ASCII range. *)
Definition is_space (c : ascii) : bool :=
  let n := N_of_ascii c in
  ((9 <=? n) && (n <=? 13) || (28 <=? n) && (n <=? 32))%N.

Fixpoint lstrip (s : list ascii) : list ascii :=
  match s with
  | c :: s' => if is_space c then lstrip s' else s
  | [] => []
  end.

(** [s.strip()] *)
Definition py_strip (s : string) : string :=
  string_of_list_ascii
    (List.rev (lstrip (List.rev (lstrip (list_ascii_of_string s))))).

Definition lower_ascii (c : ascii) : ascii :=
  let n := N_of_ascii c in
  if ((65 <=? n) && (n <=? 90))%N then ascii_of_N (n + 32) else c.

(** [s.lower()] *)
Definition py_lower (s : string) : string :=
  string_of_list_ascii (List.map lower_ascii (list_ascii_of_string s)).

(** ** [migrate] *)

Inductive event : Type :=
  | PrintImportError
  | PrintChromaNotFound
  | PrintCollections (names : list string)
  | PrintAborted
  | PrintModelLoaded
  | PrintMigrating (n : nat)
  | WarnMemory (memory_id : string) (e : exn)
  | PrintInsertedMemories (n : nat)
  | PrintEmbeddingsDone (done total : nat)
  | PrintEmbeddingsComputed (total : nat)
  | PrintInsertedCoactivation (n : nat)
  | PrintMigratingEpisodes (n : nat)
  | WarnEpisode (ep_id : string) (e : exn)
  | PrintInsertedEpisodes (n : nat)
  | PrintComplete.

(** What the running script holds. [conn] is the destination as seen
    through the open connection, [committed] what a crash would leave. *)
Record mig_state : Type := {
  conn : dest_db;
  committed : dest_db;
  model_cache : gset string;
  memory_ids_in_dest : gset string;
  coactivation_entries : list (string * string * float);
  docs_to_embed : list pyval;
  valid_records : list record;
  coa_inserted : nat;
  ep_inserted : nat;
  stdout : list event
}.

Definition set_conn (f : dest_db -> dest_db) (st : mig_state) : mig_state :=
  {| conn := f (conn st); committed := committed st;
     model_cache := model_cache st;
     memory_ids_in_dest := memory_ids_in_dest st;
     coactivation_entries := coactivation_entries st;
     docs_to_embed := docs_to_embed st; valid_records := valid_records st;
     coa_inserted := coa_inserted st; ep_inserted := ep_inserted st;
     stdout := stdout st |}.

(** [conn.commit()] *)
Definition commit (st : mig_state) : mig_state :=
  {| conn := conn st; committed := conn st;
     model_cache := model_cache st;
     memory_ids_in_dest := memory_ids_in_dest st;
     coactivation_entries := coactivation_entries st;
     docs_to_embed := docs_to_embed st; valid_records := valid_records st;
     coa_inserted := coa_inserted st; ep_inserted := ep_inserted st;
     stdout := stdout st |}.

(** [print(...)] *)
Definition print (ev : event) (st : mig_state) : mig_state :=
  {| conn := conn st; committed := committed st;
     model_cache := model_cache st;
     memory_ids_in_dest := memory_ids_in_dest st;
     coactivation_entries := coactivation_entries st;
     docs_to_embed := docs_to_embed st; valid_records := valid_records st;
     coa_inserted := coa_inserted st; ep_inserted := ep_inserted st;
     stdout := stdout st ++ [ev] |}.

(** [coactivation_entries.append(t)] *)
Definition append_entry (t : string * string * float) (st : mig_state)
    : mig_state :=
  {| conn := conn st; committed := committed st;
     model_cache := model_cache st;
     memory_ids_in_dest := memory_ids_in_dest st;
     coactivation_entries := coactivation_entries st ++ [t];
     docs_to_embed := docs_to_embed st; valid_records := valid_records st;
     coa_inserted := coa_inserted st; ep_inserted := ep_inserted st;
     stdout := stdout st |}.

(** The three statements after a successful insert:
    [memory_ids_in_dest.add], [valid_records.append],
    [docs_to_embed.append]. *)
Definition record_inserted (rec : record) (doc_to_embed : pyval)
    (st : mig_state) : mig_state :=
  {| conn := conn st; committed := committed st;
     model_cache := model_cache st;
     memory_ids_in_dest := {[rec_id rec]} ∪ memory_ids_in_dest st;
     coactivation_entries := coactivation_entries st;
     docs_to_embed := docs_to_embed st ++ [doc_to_embed];
     valid_records := valid_records st ++ [rec];
     coa_inserted := coa_inserted st; ep_inserted := ep_inserted st;
     stdout := stdout st |}.

(** [coactivation_entries = []; docs_to_embed = []; valid_records = []] *)
Definition reset_lists (st : mig_state) : mig_state :=
  {| conn := conn st; committed := committed st;
     model_cache := model_cache st;
     memory_ids_in_dest := memory_ids_in_dest st;
     coactivation_entries := [];
     docs_to_embed := []; valid_records := [];
     coa_inserted := coa_inserted st; ep_inserted := ep_inserted st;
     stdout := stdout st |}.

Definition set_coa_inserted (n : nat) (st : mig_state) : mig_state :=
  {| conn := conn st; committed := committed st;
     model_cache := model_cache st;
     memory_ids_in_dest := memory_ids_in_dest st;
     coactivation_entries := coactivation_entries st;
     docs_to_embed := docs_to_embed st; valid_records := valid_records st;
     coa_inserted := n; ep_inserted := ep_inserted st;
     stdout := stdout st |}.

Definition set_ep_inserted (n : nat) (st : mig_state) : mig_state :=
  {| conn := conn st; committed := committed st;
     model_cache := model_cache st;
     memory_ids_in_dest := memory_ids_in_dest st;
     coactivation_entries := coactivation_entries st;
     docs_to_embed := docs_to_embed st; valid_records := valid_records st;
     coa_inserted := coa_inserted st; ep_inserted := n;
     stdout := stdout st |}.

(** Run a computation on the model cache inside the script's state. *)
Definition with_cache {A} (m : St.M (gset string) A) : St.M mig_state A :=
  fun st =>
    let '(cache, r) := m (model_cache st) in
    ({| conn := conn st; committed := committed st;
        model_cache := cache;
        memory_ids_in_dest := memory_ids_in_dest st;
        coactivation_entries := coactivation_entries st;
        docs_to_embed := docs_to_embed st; valid_records := valid_records st;
        coa_inserted := coa_inserted st; ep_inserted := ep_inserted st;
        stdout := stdout st |}, r).

Definition set_memories (f : table string memory_row -> table string memory_row)
    (d : dest_db) : dest_db :=
  {| memories := f (memories d); embeddings := embeddings d;
     coactivation := coactivation d; episodes := episodes d |}.

Definition set_embeddings
    (f : table string (list Byte.byte) -> table string (list Byte.byte))
    (d : dest_db) : dest_db :=
  {| memories := memories d; embeddings := f (embeddings d);
     coactivation := coactivation d; episodes := episodes d |}.

Definition set_coactivation
    (f : table (string * string) float -> table (string * string) float)
    (d : dest_db) : dest_db :=
  {| memories := memories d; embeddings := embeddings d;
     coactivation := f (coactivation d); episodes := episodes d |}.

Definition set_episodes (f : table string episode_row -> table string episode_row)
    (d : dest_db) : dest_db :=
  {| memories := memories d; embeddings := embeddings d;
     coactivation := coactivation d; episodes := f (episodes d) |}.

(** [meta.get(k, d)] *)
Definition meta_get (meta : gmap string pyval) (k : string) (d : pyval)
    : pyval :=
  default d (meta !! k).

(** [range(0, total, step)] *)
Definition py_range_step (total step : nat) : list nat :=
  List.map (fun k => (k * step)%nat)
           (seq 0 (Nat.div (total + step - 1) step)).

(** [l[i : i + n]] *)
Definition slice {A} (l : list A) (i n : nat) : list A := take n (drop i l).

(** What the environment decides before and around a run. *)
Record env : Type := {
  (** [import numpy] succeeds *)
  numpy_importable : bool;
  (** [chroma_sqlite.exists()] *)
  chroma_sqlite_exists : bool;
  (** the contents of [chroma.sqlite3] *)
  chroma : chroma_db;
  (** the line read by [input] *)
  answer : string;
  (** [import sentence_transformers] succeeds *)
  sentence_transformers_importable : bool
}.

Inductive termination : Type :=
  | Exited (code : Z)     (** [sys.exit(code)] *)
  | Uncaught (e : exn)    (** an exception left [migrate] *)
  | Returned.             (** [migrate] ran to its end *)

Record outcome : Type := {
  how : termination;
  printed : list event;
  dest : dest_db
}.

(** The status the process ends with. *)
Definition exit_status (t : termination) : Z :=
  match t with
  | Exited code => code
  | Uncaught _ => 1
  | Returned => 0
  end.

Section Migrate.
Variable X : externals.

(** *** Coactivation extraction *)

(** The body of [for target_id, weight in coact_dict.items()]. *)
Definition coact_item (memory_id : string) (kv : string * json)
    : St.M mig_state unit :=
  let '(target_id, weight) := kv in
  St.try_except
    (St.bind (St.lift (json_float X weight)) (fun w =>
       let w := py_max2 0%float (py_min2 1%float w) in
       St.modify (append_entry (memory_id, target_id, w))))
    [TypeError; ValueError]
    (fun _ => St.ret tt).

(** [if coact_raw: try: ... except (json.JSONDecodeError, TypeError)] *)
Definition extract_coactivation (memory_id : string) (coact_raw : pyval)
    : St.M mig_state unit :=
  if truthy coact_raw then
    St.try_except
      (St.bind
         (match coact_raw with
          | PStr s => match json_loads X s with
                      | Some j => St.ret (Some j)
                      | None => St.raise JSONDecodeError
                      end
          | _ => St.ret None
          end)
         (fun coact_dict =>
            match coact_dict with
            | Some (JObj items) =>
                St.for_each items (coact_item memory_id)
            | _ => St.ret tt
            end))
      [JSONDecodeError; TypeError]
      (fun _ => St.ret tt)
  else St.ret tt.

(** *** One memory record *)

(** [meta.get("content") or doc] *)
Definition original_content_of (meta : gmap string pyval) (doc : string)
    : pyval :=
  match or_None (meta !! "content"%string) with
  | Some v => v
  | None => PStr doc
  end.

(** [x = meta.get(k) or None; if x == "": x = None] *)
Definition nullable (x : option pyval) : option pyval :=
  match or_None x with
  | Some (PStr s) => if String.eqb s "" then None else Some (PStr s)
  | y => y
  end.

(** [normalize_japanese(doc) if doc else ""] *)
Definition normalized_of (doc : string) : string :=
  if negb (String.eqb doc "") then normalize_japanese X doc else ""%string.

(** [normalized or original_content] *)
Definition doc_to_embed_of (normalized : string) (original_content : pyval)
    : pyval :=
  if negb (String.eqb normalized "") then PStr normalized
  else original_content.

(** The tuple of values handed to the [INSERT] into [memories]; the
    coercions are evaluated left to right. *)
Definition memory_values (meta : gmap string pyval)
    (original_content : pyval) (normalized : string)
    (episode_id : option pyval) : result memory_row :=
  rbind (py_int X (meta_get meta "importance" (PInt 3))) (fun imp =>
  rbind (py_int X (meta_get meta "access_count" (PInt 0))) (fun acc =>
  rbind (py_float X (meta_get meta "novelty_score" (PFloat 0))) (fun nov =>
  rbind (py_float X (meta_get meta "prediction_error" (PFloat 0))) (fun pe =>
  rbind (py_int X (meta_get meta "activation_count" (PInt 0))) (fun act =>
  Ok {| content := original_content;
        normalized_content := normalized;
        timestamp := meta_get meta "timestamp" (PStr "");
        emotion := meta_get meta "emotion" (PStr "neutral");
        importance := imp;
        category := meta_get meta "category" (PStr "daily");
        access_count := acc;
        last_accessed := meta_get meta "last_accessed" (PStr "");
        linked_ids := meta_get meta "linked_ids" (PStr "");
        episode_id := episode_id;
        sensory_data := meta_get meta "sensory_data" (PStr "");
        camera_position := or_None (meta !! "camera_position"%string);
        tags := meta_get meta "tags" (PStr "");
        links := meta_get meta "links" (PStr "");
        novelty_score := nov;
        prediction_error := pe;
        activation_count := act;
        last_activated := meta_get meta "last_activated" (PStr "");
        reading := or_None (meta !! "reading"%string) |}))))).

(** The metadata once ["coactivation"] is popped. *)
Definition meta_of (rec : record) : gmap string pyval :=
  delete "coactivation"%string (rec_metadata rec).

(** [meta.pop("coactivation", "") or ""] *)
Definition coact_raw_of (rec : record) : pyval :=
  py_or (meta_get (rec_metadata rec) "coactivation" (PStr "")) (PStr "").

Definition row_of_record (rec : record) : result memory_row :=
  let meta := meta_of rec in
  let doc := rec_document rec in
  memory_values meta (original_content_of meta doc) (normalized_of doc)
    (nullable (meta !! "episode_id"%string)).

Definition doc_to_embed_of_record (rec : record) : pyval :=
  doc_to_embed_of (normalized_of (rec_document rec))
    (original_content_of (meta_of rec) (rec_document rec)).

(** The body of [for rec in records]. *)
Definition migrate_record (rec : record) : St.M mig_state unit :=
  let memory_id := rec_id rec in
  St.bind (extract_coactivation memory_id (coact_raw_of rec)) (fun _ =>
    St.try_except_all
      (St.bind (St.lift (row_of_record rec)) (fun row =>
         St.bind
           (St.modify
              (set_conn (set_memories (insert_or_ignore memory_id row))))
           (fun _ =>
              St.modify
                (record_inserted rec (doc_to_embed_of_record rec)))))
      (fun e => St.modify (print (WarnMemory memory_id e)))).

(** *** Embeddings, batch by batch *)

Definition batch_size : nat := 32.

(** [encode_vector(np.array(vec, dtype=np.float32))] *)
Definition vec_bytes_of (vec : list float) : list Byte.byte :=
  Vector.encode_vector (List.map (np_float32 X) vec).

(** The body of [for rec, vec in zip(batch_recs, batch_vecs)]. *)
Definition insert_embedding (ids : gset string)
    (t : table string (list Byte.byte)) (rv : record * list float)
    : table string (list Byte.byte) :=
  let memory_id := rec_id (fst rv) in
  if bool_decide (memory_id ∈ ids)
  then insert_or_ignore memory_id (vec_bytes_of (snd rv)) t
  else t.

Variable st_importable : bool.

(** The body of [for i in range(0, total, batch_size)]. *)
Definition embed_batch (total i : nat) : St.M mig_state unit :=
  fun st =>
    let batch_recs := slice (valid_records st) i batch_size in
    let batch_docs := slice (docs_to_embed st) i batch_size in
    St.bind
      (with_cache (E5.call X st_importable (embedding_model X) batch_docs))
      (fun batch_vecs =>
         St.modify (fun st =>
           let st1 :=
             set_conn
               (set_embeddings (fun t =>
                  fold_left (insert_embedding (memory_ids_in_dest st))
                            (zip batch_recs batch_vecs) t))
               st in
           print (PrintEmbeddingsDone (Nat.min (i + batch_size) total) total)
                 (commit st1)))
      st.

(** *** The coactivation graph *)

(** The body of [for source_id, target_id, weight in
    coactivation_entries]. In this model of the store the [INSERT]
    cannot raise, so the [except Exception: pass] arm is never taken. *)
Definition insert_coactivation (ids : gset string)
    (acc : table (string * string) float * nat)
    (t : string * string * float)
    : table (string * string) float * nat :=
  let '(source_id, target_id, weight) := t in
  if bool_decide (source_id ∈ ids) && bool_decide (target_id ∈ ids)
  then (insert_or_ignore (source_id, target_id) weight (fst acc),
        S (snd acc))
  else acc.

Definition reconcile (st : mig_state) : mig_state :=
  let '(t, n) :=
    fold_left (insert_coactivation (memory_ids_in_dest st))
              (coactivation_entries st)
              (coactivation (conn st), 0%nat) in
  print (PrintInsertedCoactivation n)
    (commit (set_coa_inserted n (set_conn (set_coactivation (fun _ => t)) st))).

(** *** The memories collection *)

Definition migrate_memories (records : list record) : St.M mig_state unit :=
  St.bind (St.modify (print (PrintMigrating (length records)))) (fun _ =>
  St.bind (St.modify reset_lists) (fun _ =>
  St.bind (St.for_each records migrate_record) (fun _ =>
  St.bind (St.modify (fun st =>
             print (PrintInsertedMemories (size (memory_ids_in_dest st)))
                   (commit st))) (fun _ =>
  fun st =>
    let total := length (valid_records st) in
    St.bind (St.for_each (py_range_step total batch_size)
                         (embed_batch total)) (fun _ =>
    St.bind (St.modify (print (PrintEmbeddingsComputed total))) (fun _ =>
    St.modify reconcile)) st)))).

(** *** The episodes collection *)

Definition episode_values (rec : record) : result episode_row :=
  let meta := rec_metadata rec in
  rbind (py_int X (meta_get meta "importance" (PInt 3))) (fun imp =>
  Ok {| ep_title := meta_get meta "title" (PStr "");
        ep_start_time := meta_get meta "start_time" (PStr "");
        ep_end_time := nullable (meta !! "end_time"%string);
        ep_memory_ids := meta_get meta "memory_ids" (PStr "");
        ep_participants := meta_get meta "participants" (PStr "");
        ep_location_context := or_None (meta !! "location_context"%string);
        ep_summary := rec_document rec;
        ep_emotion := meta_get meta "emotion" (PStr "neutral");
        ep_importance := imp |}).

Definition migrate_episode (rec : record) : St.M mig_state unit :=
  let ep_id := rec_id rec in
  St.try_except_all
    (St.bind (St.lift (episode_values rec)) (fun row =>
       St.modify (fun st =>
         set_ep_inserted (S (ep_inserted st))
           (set_conn (set_episodes (insert_or_ignore ep_id row)) st))))
    (fun e => St.modify (print (WarnEpisode ep_id e))).

Definition migrate_episodes (ep_records : list record)
    : St.M mig_state unit :=
  St.bind (St.modify (print (PrintMigratingEpisodes (length ep_records))))
    (fun _ =>
  St.bind (St.for_each ep_records migrate_episode) (fun _ =>
  St.modify (fun st =>
    print (PrintInsertedEpisodes (ep_inserted st)) (commit st)))).
End Migrate.

(** *** The whole script *)

Definition initial_state (d : dest_db) (out : list event) : mig_state :=
  {| conn := d; committed := d; model_cache := ∅;
     memory_ids_in_dest := ∅; coactivation_entries := [];
     docs_to_embed := []; valid_records := [];
     coa_inserted := 0%nat; ep_inserted := 0%nat; stdout := out |}.

(** [next((n for n in collection_names if n != "episodes"), None)] *)
Definition memories_collection_name (collection_names : list string)
    : option string :=
  List.find (fun n => negb (String.eqb n "episodes")) collection_names.

(** [if memories_collection_name: ...] *)
Definition memories_stage (X : externals) (E : env) : St.M mig_state unit :=
  match memories_collection_name (List.map fst (collections (chroma E))) with
  | Some n =>
      if negb (String.eqb n "")
      then migrate_memories X (sentence_transformers_importable E)
             (_read_chroma_collection (chroma E) n)
      else St.ret tt
  | None => St.ret tt
  end.

(** [if "episodes" in collection_names: ...] *)
Definition episodes_stage (X : externals) (E : env) : St.M mig_state unit :=
  if existsb (String.eqb "episodes") (List.map fst (collections (chroma E)))
  then migrate_episodes X (_read_chroma_collection (chroma E) "episodes")
  else St.ret tt.

(** Everything after the model is loaded and the destination is open. *)
Definition migrate_body (X : externals) (E : env) : St.M mig_state unit :=
  St.bind (memories_stage X E) (fun _ =>
  St.bind (episodes_stage X E) (fun _ =>
  St.modify (print PrintComplete))).

Definition outcome_of (t : termination) (st : mig_state) : outcome :=
  {| how := t; printed := stdout st; dest := committed st |}.

(** [migrate(source, dest)], started on a destination holding [d]. *)
Definition migrate (X : externals) (E : env) (d : dest_db) : outcome :=
  if negb (numpy_importable E) then
    outcome_of (Exited 1) (initial_state d [PrintImportError])
  else if negb (chroma_sqlite_exists E) then
    outcome_of (Exited 1) (initial_state d [PrintChromaNotFound])
  else
    let collection_names := List.map fst (collections (chroma E)) in
    let st0 := initial_state d [PrintCollections collection_names] in
    if negb (String.eqb (py_lower (py_strip (answer E))) "y") then
      outcome_of (Exited 0) (print PrintAborted st0)
    else
      match with_cache
              (E5._load_model (sentence_transformers_importable E)
                 (embedding_model X)) st0 with
      | (st1, Raise e) => outcome_of (Uncaught e) st1
      | (st1, Ok _) =>
          match migrate_body X E (print PrintModelLoaded st1) with
          | (st2, Raise e) => outcome_of (Uncaught e) st2
          | (st2, Ok _) => outcome_of Returned st2
          end
      end.


(** ** Closed forms of the loops

    What each stage of [migrate] appends and inserts, as plain functions
    of the source records. The loops above are proved equal to them. *)

(** [coactivation_entries.extend(l)] *)
Definition add_entries (l : list (string * string * float)) (st : mig_state)
    : mig_state :=
  {| conn := conn st; committed := committed st;
     model_cache := model_cache st;
     memory_ids_in_dest := memory_ids_in_dest st;
     coactivation_entries := coactivation_entries st ++ l;
     docs_to_embed := docs_to_embed st; valid_records := valid_records st;
     coa_inserted := coa_inserted st; ep_inserted := ep_inserted st;
     stdout := stdout st |}.

Section Summary.
Variable X : externals.

(** The triples one parsed coactivation mapping contributes, and the
    exception, if any, that stops the extraction. *)
Fixpoint entries_of_items (memory_id : string) (items : list (string * json))
    : list (string * string * float) * result unit :=
  match items with
  | [] => ([], Ok tt)
  | (target_id, weight) :: rest =>
      match json_float X weight with
      | Ok w =>
          match entries_of_items memory_id rest with
          | (l, r) => ((memory_id, target_id, clamp01 w) :: l, r)
          end
      | Raise e =>
          if caught_by e [TypeError; ValueError]
          then entries_of_items memory_id rest
          else ([], Raise e)
      end
  end.

Definition entries_of (rec : record)
    : list (string * string * float) * result unit :=
  match coact_raw_of rec with
  | PStr s =>
      if truthy (PStr s) then
        match json_loads X s with
        | Some (JObj items) => entries_of_items (rec_id rec) items
        | _ => ([], Ok tt)
        end
      else ([], Ok tt)
  | _ => ([], Ok tt)
  end.

(** One iteration of the record loop that does not raise. *)
Definition record_step (st : mig_state) (rec : record) : mig_state :=
  let st1 := add_entries (fst (entries_of rec)) st in
  match row_of_record X rec with
  | Ok row =>
      record_inserted rec (doc_to_embed_of_record X rec)
        (set_conn (set_memories (insert_or_ignore (rec_id rec) row)) st1)
  | Raise e => print (WarnMemory (rec_id rec) e) st1
  end.

(** The exception that leaves the record loop, if any. *)
Fixpoint loop_result (records : list record) : result unit :=
  match records with
  | [] => Ok tt
  | rec :: rest =>
      match snd (entries_of rec) with
      | Ok _ => loop_result rest
      | Raise e => Raise e
      end
  end.

(** The records whose insert goes through. *)
Definition is_valid (rec : record) : bool :=
  match row_of_record X rec with Ok _ => true | Raise _ => false end.

Definition valid_of (records : list record) : list record :=
  List.filter is_valid records.

Definition memory_rows_of (records : list record)
    : list (string * memory_row) :=
  List.flat_map
    (fun rec => match row_of_record X rec with
                | Ok row => [(rec_id rec, row)]
                | Raise _ => []
                end)
    records.

Definition ids_of (records : list record) : gset string :=
  list_to_set (List.map rec_id (valid_of records)).

Definition all_entries_of (records : list record)
    : list (string * string * float) :=
  List.flat_map (fun rec => fst (entries_of rec)) records.

Definition warnings_of (records : list record) : list event :=
  List.flat_map
    (fun rec => match row_of_record X rec with
                | Ok _ => []
                | Raise e => [WarnMemory (rec_id rec) e]
                end)
    records.

(** One batch of embeddings, the model being loaded. *)
Definition batch_vecs_of (valids : list record) (docs : list pyval) (i : nat)
    : list (record * list float) :=
  zip (slice valids i batch_size)
      (model_encode X (embedding_model X)
         (List.map (fun doc => ("passage: " ++ format_value X doc)%string)
                   (slice docs i batch_size))).

Definition embedding_rows_of_batch (ids : gset string)
    (pairs : list (record * list float))
    : list (string * list Byte.byte) :=
  List.map (fun rv => (rec_id (fst rv), vec_bytes_of X (snd rv)))
    (List.filter (fun rv => bool_decide (rec_id (fst rv) ∈ ids)) pairs).

Definition embedding_rows_of (ids : gset string) (valids : list record)
    (docs : list pyval) : list (string * list Byte.byte) :=
  List.flat_map
    (fun i => embedding_rows_of_batch ids (batch_vecs_of valids docs i))
    (py_range_step (length valids) batch_size).

Definition embed_step (total : nat) (st : mig_state) (i : nat) : mig_state :=
  print (PrintEmbeddingsDone (Nat.min (i + batch_size) total) total)
    (commit
       (set_conn
          (set_embeddings
             (insert_all
                (embedding_rows_of_batch (memory_ids_in_dest st)
                   (batch_vecs_of (valid_records st) (docs_to_embed st) i))))
          st)).

(** The edges the reconciler submits. *)
Definition admitted (ids : gset string) (t : string * string * float) : bool :=
  bool_decide (fst (fst t) ∈ ids) && bool_decide (snd (fst t) ∈ ids).

Definition coactivation_rows_of (ids : gset string)
    (entries : list (string * string * float))
    : list (string * string * float) :=
  List.filter (admitted ids) entries.

Definition episode_rows_of (ep_records : list record)
    : list (string * episode_row) :=
  List.flat_map
    (fun rec => match episode_values X rec with
                | Ok row => [(rec_id rec, row)]
                | Raise _ => []
                end)
    ep_records.

Definition episode_step (st : mig_state) (rec : record) : mig_state :=
  match episode_values X rec with
  | Ok row =>
      set_ep_inserted (S (ep_inserted st))
        (set_conn (set_episodes (insert_or_ignore (rec_id rec) row)) st)
  | Raise e => print (WarnEpisode (rec_id rec) e) st
  end.
End Summary.

(** Everything one run submits to the destination, table by table. *)
Record plan : Type := {
  p_memories : list (string * memory_row);
  p_embeddings : list (string * list Byte.byte);
  p_coactivation : list (string * string * float);
  p_episodes : list (string * episode_row)
}.

Definition empty_plan : plan :=
  {| p_memories := []; p_embeddings := []; p_coactivation := [];
     p_episodes := [] |}.

Definition apply_plan (p : plan) (d : dest_db) : dest_db :=
  {| memories := insert_all (p_memories p) (memories d);
     embeddings := insert_all (p_embeddings p) (embeddings d);
     coactivation := insert_all (p_coactivation p) (coactivation d);
     episodes := insert_all (p_episodes p) (episodes d) |}.

(** The source records of the memories collection, if there is one. *)
Definition memory_records_of (E : env) : list record :=
  match memories_collection_name (List.map fst (collections (chroma E))) with
  | Some n =>
      if negb (String.eqb n "") then _read_chroma_collection (chroma E) n
      else []
  | None => []
  end.

Definition episode_records_of (E : env) : list record :=
  if existsb (String.eqb "episodes") (List.map fst (collections (chroma E)))
  then _read_chroma_collection (chroma E) "episodes"
  else [].

(** Whether the run gets past the prompt and the model load. *)
Definition proceeds (E : env) : bool :=
  numpy_importable E && chroma_sqlite_exists E
  && String.eqb (py_lower (py_strip (answer E))) "y"
  && sentence_transformers_importable E.

(** The state in which the stages start. *)
Definition loaded_state (X : externals) (E : env) (d : dest_db) : mig_state :=
  print PrintModelLoaded
    {| conn := d; committed := d;
       model_cache := {[embedding_model X]} ∪ ∅;
       memory_ids_in_dest := ∅; coactivation_entries := [];
       docs_to_embed := []; valid_records := [];
       coa_inserted := 0%nat; ep_inserted := 0%nat;
       stdout := [PrintCollections (List.map fst (collections (chroma E)))] |}.

Definition plan_of (X : externals) (E : env) : plan :=
  if proceeds E then
    let records := memory_records_of E in
    match loop_result X records with
    | Raise _ => empty_plan
    | Ok _ =>
        let ids := ids_of X records in
        let valids := valid_of X records in
        {| p_memories := memory_rows_of X records;
           p_embeddings :=
             embedding_rows_of X ids valids
               (List.map (doc_to_embed_of_record X) valids);
           p_coactivation :=
             coactivation_rows_of ids (all_entries_of X records);
           p_episodes := episode_rows_of X (episode_records_of E) |}
    end
  else empty_plan.

(** What claim C10 calls a failed coercion of a numeric field. *)
Definition numeric_coercion_fails (X : externals) (rec : record) : Prop :=
  let meta := meta_of rec in
  (exists e, py_int X (meta_get meta "importance" (PInt 3)) = Raise e)
  \/ (exists e, py_int X (meta_get meta "access_count" (PInt 0)) = Raise e)
  \/ (exists e,
        py_float X (meta_get meta "novelty_score" (PFloat 0)) = Raise e)
  \/ (exists e,
        py_float X (meta_get meta "prediction_error" (PFloat 0)) = Raise e)
  \/ (exists e,
        py_int X (meta_get meta "activation_count" (PInt 0)) = Raise e).

(** ** Sample data

    A small source in the shape of the end-to-end scenario: one
    collection of two memories, [id1] carrying a coactivation mapping
    onto [id2], and an [episodes] collection of one record. The sample
    collaborators are finite tables that agree with the real functions
    on the few strings the samples use. *)

Definition quote : string := String (ascii_of_nat 34) EmptyString.

(** The text [{"id2": 0.95}], quotes included. *)
Definition coact_text : string :=
  ("{" ++ quote ++ "id2" ++ quote ++ ": 0.95}")%string.

Fixpoint zeros (n : nat) : string :=
  match n with O => EmptyString | S n' => String "0"%char (zeros n') end.

(** The text [{"id2": 1000...0, "id3": 0.5}], the integer having 400
    zeros. *)
Definition coact_text_huge : string :=
  ("{" ++ quote ++ "id2" ++ quote ++ ": 1" ++ zeros 400 ++ ", "
   ++ quote ++ "id3" ++ quote ++ ": 0.5}")%string.

(** The text [{"id2": null, "id3": 1.7, "id4": "x", "id5": -0.3}]. *)
Definition coact_text_mixed : string :=
  ("{" ++ quote ++ "id2" ++ quote ++ ": null, "
   ++ quote ++ "id3" ++ quote ++ ": 1.7, "
   ++ quote ++ "id4" ++ quote ++ ": " ++ quote ++ "x" ++ quote ++ ", "
   ++ quote ++ "id5" ++ quote ++ ": -0.3}")%string.

Definition sample_externals : externals :=
  {| int_of_str := fun s => if String.eqb s "4" then Some 4 else None;
     float_of_str := fun s => if String.eqb s "0.5" then Some 0.5%float
                              else None;
     json_loads := fun s =>
       if String.eqb s coact_text then
         Some (JObj [("id2"%string, JFloat 0.95)])
       else if String.eqb s coact_text_huge then
         Some (JObj [("id2"%string, JInt (10 ^ 400));
                     ("id3"%string, JFloat 0.5)])
       else if String.eqb s coact_text_mixed then
         Some (JObj [("id2"%string, JNull); ("id3"%string, JFloat 1.7);
                     ("id4"%string, JStr "x");
                     ("id5"%string, JFloat (-0.3))])
       else None;
     normalize_japanese := fun s => s;
     str_of_int := fun _ => "0"%string;
     str_of_float := fun _ => "0.0"%string;
     embedding_model := "intfloat/multilingual-e5-base";
     model_encode := fun _ texts => List.map (fun _ => [0.5%float]) texts;
     np_float32 := fun _ => 1056964608 |}.

Definition sample_chroma (coact : string) : chroma_db :=
  {| collections := [("memA", "c1"); ("episodes", "c2")]%string;
     segments := [("s0", "c1", "VECTOR"); ("s1", "c1", "METADATA");
                  ("s2", "c2", "METADATA")]%string;
     chroma_embeddings :=
       [(1, "s1", "id1"); (2, "s1", "id2"); (3, "s2", "ep1")]%string;
     embedding_metadata :=
       [(1, "chroma:document", Some "hello", None, None);
        (1, "coactivation", Some coact, None, None);
        (1, "emotion", Some "happy", None, None);
        (2, "chroma:document", Some "world", None, None);
        (2, "importance", None, Some 5, None);
        (3, "chroma:document", Some "a walk", None, None);
        (3, "title", Some "walk", None, None)]%string |}.

Definition sample_env (coact answer : string) : env :=
  {| numpy_importable := true;
     chroma_sqlite_exists := true;
     chroma := sample_chroma coact;
     answer := answer;
     sentence_transformers_importable := true |}.

(** A record whose metadata carries an empty ["content"]. *)
Definition record_empty_content : record :=
  {| rec_id := "id1"; rec_document := "hello";
     rec_metadata := {[ "content"%string := PStr "" ]} |}.

(** A record whose ["importance"] is not a number. *)
Definition record_bad_importance : record :=
  {| rec_id := "id3"; rec_document := "again";
     rec_metadata := {[ "importance"%string := PStr "high" ]} |}.

Definition record_plain (id doc : string) : record :=
  {| rec_id := id; rec_document := doc; rec_metadata := ∅ |}.

Definition record_with_coactivation (id doc coact : string) : record :=
  {| rec_id := id; rec_document := doc;
     rec_metadata := {[ "coactivation"%string := PStr coact ]} |}.

(** The memories of the sample source, as the reader returns them. *)
Definition scenario_records : list record :=
  _read_chroma_collection (sample_chroma coact_text) "memA".

(** [id1] points at [id2], whose ["importance"] is not a number. *)
Definition records_target_fails : list record :=
  [record_with_coactivation "id1" "hello" coact_text;
   {| rec_id := "id2"; rec_document := "world";
      rec_metadata := {[ "importance"%string := PStr "high" ]} |}].

(** A list of records of which the second fails [int()]. *)
Definition records_one_bad : list record :=
  [record_plain "id7" "hello"; record_bad_importance].

(** A denormal, both zeros, a quiet and a signalling NaN with payload,
    one, and the largest finite value. *)
Definition sample_vector : list Z :=
  [1; 0; 2147483648; 2143289344; 2141192193; 4290772993; 1065353216;
   2139095039].

(** ** Rows of [embedding_metadata], column by column *)

Definition meta_row_key (r : meta_row) : string :=
  let '(_, key, _, _, _) := r in key.

(** The first non-null of [string_value], [int_value], [float_value]. *)
Definition meta_row_value (r : meta_row) : option pyval :=
  let '(_, _, str_val, int_val, float_val) := r in
  match str_val, int_val, float_val with
  | Some s, _, _ => Some (PStr s)
  | None, Some z, _ => Some (PInt z)
  | None, None, Some f => Some (PFloat f)
  | None, None, None => None
  end.

(** [string_value] of a row, [""] for NULL. *)
Definition meta_row_document (r : meta_row) : string :=
  let '(_, _, str_val, _, _) := r in default ""%string str_val.

(** The metadata and the document that the rows of one memory give. *)
Definition read_meta_rows (rows : list meta_row) : gmap string pyval * string :=
  fold_left read_meta_row rows (∅, ""%string).

(** Three rows of one memory: its document, a key given twice, and a row
    whose three value columns are all NULL. *)
Definition sample_meta_rows : list meta_row :=
  [(1, "chroma:document", Some "hello", None, None);
   (1, "importance", None, Some 2, None);
   (1, "importance", Some "4", Some 9, None);
   (1, "importance", None, None, None)]%string.


(** [rec] with its ["coactivation"] value replaced. *)
Definition with_coactivation (v : pyval) (rec : record) : record :=
  {| rec_id := rec_id rec; rec_document := rec_document rec;
     rec_metadata := <["coactivation"%string := v]> (rec_metadata rec) |}.

(** The record [id2] of the sample source. *)
Definition sample_record_id2 : record :=
  {| rec_id := "id2"; rec_document := "world";
     rec_metadata := {[ "importance"%string := PInt 5 ]} |}.


(** An episode record with an empty ["end_time"]. *)
Definition episode_open_ended : record :=
  {| rec_id := "ep2"; rec_document := "a talk";
     rec_metadata := {[ "end_time"%string := PStr "" ]} |}.

(** An episode record whose ["importance"] is not a number. *)
Definition episode_bad_importance : record :=
  {| rec_id := "ep3"; rec_document := "a nap";
     rec_metadata := {[ "importance"%string := PStr "high" ]} |}.

(** The warnings the episode loop prints. *)
Definition episode_warnings_of (X : externals) (ep_records : list record)
    : list event :=
  List.flat_map
    (fun rec => match episode_values X rec with
                | Ok _ => []
                | Raise e => [WarnEpisode (rec_id rec) e]
                end)
    ep_records.

(** * Properties *)

(** ** The vector codec *)

Module VectorFacts.
Import Vector.

Lemma Z_of_byte_of_Z (z : Z) : Z_of_byte (byte_of_Z z) = z mod 2 ^ 8.
Proof.
  unfold Z_of_byte, byte_of_Z.
  change 255 with (Z.ones 8). rewrite Z.land_ones by lia.
  assert (Hr : 0 <= z mod 2 ^ 8 < 2 ^ 8) by (apply Z.mod_pos_bound; lia).
  destruct (Byte.of_N (Z.to_N (z mod 2 ^ 8))) as [b|] eqn:E.
  - apply Byte.to_of_N in E. rewrite E. lia.
  - apply Byte.of_N_None_iff in E. lia.
Qed.

Lemma decode_encode_f32 (w : Z) :
  is_f32 w ->
  decode_f32 (byte_of_Z w) (byte_of_Z (Z.shiftr w 8))
             (byte_of_Z (Z.shiftr w 16)) (byte_of_Z (Z.shiftr w 24)) = w.
Proof.
  intros [Hlo Hhi]. unfold decode_f32. rewrite !Z_of_byte_of_Z.
  apply Z.bits_inj'. intros n Hn.
  rewrite !Z.lor_spec, !Z.shiftl_spec by lia.
  destruct (Z_lt_le_dec n 8); [|destruct (Z_lt_le_dec n 16);
    [|destruct (Z_lt_le_dec n 24); [|destruct (Z_lt_le_dec n 32)]]].
  - rewrite Z.mod_pow2_bits_low by lia.
    rewrite !(Z.testbit_neg_r _ (n - _)) by lia. now rewrite !orb_false_r.
  - rewrite Z.mod_pow2_bits_high by lia.
    rewrite Z.mod_pow2_bits_low by lia. rewrite Z.shiftr_spec by lia.
    rewrite !(Z.testbit_neg_r _ (n - _)) by lia.
    replace (n - 8 + 8) with n by lia. now rewrite !orb_false_r.
  - rewrite !Z.mod_pow2_bits_high by lia.
    rewrite Z.mod_pow2_bits_low by lia. rewrite Z.shiftr_spec by lia.
    rewrite !(Z.testbit_neg_r _ (n - _)) by lia.
    replace (n - 16 + 16) with n by lia. now rewrite !orb_false_r.
  - rewrite !Z.mod_pow2_bits_high by lia.
    rewrite Z.mod_pow2_bits_low by lia. rewrite Z.shiftr_spec by lia.
    replace (n - 24 + 24) with n by lia. reflexivity.
  - rewrite !Z.mod_pow2_bits_high by lia. simpl.
    symmetry. apply Z.bits_above_log2; [lia|].
    destruct (Z.eq_dec w 0) as [->|]; [simpl; lia|].
    apply Z.log2_lt_pow2; [lia|].
    assert (2 ^ 32 <= 2 ^ n) by (apply Z.pow_le_mono_r; lia). lia.
Qed.

Lemma length_encode_vector (v : list Z) :
  Z.of_nat (length (encode_vector v)) = 4 * Z.of_nat (length v).
Proof.
  unfold encode_vector. induction v as [|w v IH]; [reflexivity|].
  cbn [List.map List.concat]. rewrite length_app. cbn [encode_f32 length].
  cbn [length] in *. lia.
Qed.

Lemma decode_encode_vector (v : list Z) :
  Forall is_f32 v -> decode_vector (encode_vector v) = Some v.
Proof.
  unfold encode_vector. induction 1 as [|w v Hw _ IH]; [reflexivity|].
  cbn [List.map List.concat encode_f32 app decode_vector].
  rewrite IH. now rewrite decode_encode_f32.
Qed.
End VectorFacts.

(** ** Comparisons of floats *)

Module FloatFacts.
Lemma SFcompare_antisym (x y : spec_float) (c : comparison) :
  SFcompare x y = Some c -> SFcompare y x = Some (CompOpp c).
Proof.
  destruct x as [s1|s1| |s1 m1 e1], y as [s2|s2| |s2 m2 e2]; simpl;
    try discriminate; try (destruct s1); try (destruct s2);
    intros H; inversion H; subst; try reflexivity.
  - rewrite (Z.compare_antisym e1 e2).
    destruct (e1 ?= e2)%Z; simpl; try reflexivity.
    rewrite !Pos.compare_cont_spec. simpl.
    rewrite (Pos.compare_antisym m1 m2).
    destruct (m1 ?= m2)%positive; reflexivity.
  - rewrite (Z.compare_antisym e1 e2).
    destruct (e1 ?= e2)%Z; simpl; try reflexivity.
    rewrite !Pos.compare_cont_spec. simpl.
    rewrite (Pos.compare_antisym m1 m2).
    destruct (m1 ?= m2)%positive; reflexivity.
Qed.

Lemma SFcompare_Eq_finite (x : spec_float) (m : positive) (e : Z) :
  SFcompare x (S754_finite false m e) = Some Eq ->
  x = S754_finite false m e.
Proof.
  destruct x as [s1|s1| |s1 m1 e1]; simpl; try discriminate;
    try (destruct s1; discriminate).
  destruct s1; [discriminate|].
  destruct (e1 ?= e)%Z eqn:He; try discriminate.
  rewrite Pos.compare_cont_spec. simpl. intros H.
  apply Z.compare_eq in He. subst e1.
  destruct (m1 ?= m)%positive eqn:Hm; try discriminate.
  apply Pos.compare_eq in Hm. now subst.
Qed.

Lemma one_sf : Prim2SF 1 = S754_finite false 4503599627370496 (-52).
Proof. vm_compute. reflexivity. Qed.

Lemma zero_sf : Prim2SF 0 = S754_zero false.
Proof. vm_compute. reflexivity. Qed.

Lemma ltb_asym (x y : float) :
  PrimFloat.ltb x y = true -> PrimFloat.ltb y x = false.
Proof.
  rewrite !FloatAxioms.ltb_spec. unfold SFltb.
  destruct (SFcompare (Prim2SF x) (Prim2SF y)) as [[]|] eqn:E;
    try discriminate.
  intros _. now rewrite (SFcompare_antisym _ _ _ E).
Qed.

Lemma ltb_leb (x y : float) :
  PrimFloat.ltb x y = true -> PrimFloat.leb x y = true.
Proof.
  rewrite FloatAxioms.ltb_spec, FloatAxioms.leb_spec. unfold SFltb, SFleb.
  now destruct (SFcompare (Prim2SF x) (Prim2SF y)) as [[]|].
Qed.

Lemma SFltb_zero_finite (x : spec_float) (m : positive) (e : Z) :
  SFltb x (S754_zero false) = true ->
  SFltb x (S754_finite false m e) = true.
Proof.
  unfold SFltb.
  destruct x as [s|s| |s m1 e1]; simpl; try discriminate;
    now destruct s.
Qed.

Lemma SFeqb_refl (x : spec_float) : x <> S754_nan -> SFeqb x x = true.
Proof.
  unfold SFeqb.
  destruct x as [s|s| |s m e]; simpl; try congruence;
    destruct s; try reflexivity; intros _;
    rewrite Z.compare_refl, Pos.compare_cont_spec; simpl;
    now rewrite Pos.compare_refl.
Qed.

Lemma below_zero_below_one (w : float) :
  PrimFloat.ltb w 0 = true -> PrimFloat.ltb w 1 = true.
Proof.
  rewrite !FloatAxioms.ltb_spec, one_sf, zero_sf. apply SFltb_zero_finite.
Qed.

(** A float that is neither below nor above one, yet comparable to it,
    is one. *)
Lemma leb_not_ltb_one (w : float) :
  PrimFloat.leb w 1 = true -> PrimFloat.ltb w 1 = false -> w = 1%float.
Proof.
  rewrite FloatAxioms.leb_spec, FloatAxioms.ltb_spec, one_sf. unfold SFleb, SFltb.
  destruct (SFcompare (Prim2SF w) _) as [[]|] eqn:E; try discriminate.
  intros _ _. apply SFcompare_Eq_finite in E.
  rewrite <- (SF2Prim_Prim2SF w), E, <- one_sf.
  apply SF2Prim_Prim2SF.
Qed.

(** A float with [0 <= w] that is not above zero is a zero. *)
Lemma leb_not_ltb_zero (w : float) :
  PrimFloat.leb 0 w = true -> PrimFloat.ltb 0 w = false ->
  w = 0%float \/ w = neg_zero.
Proof.
  rewrite FloatAxioms.leb_spec, FloatAxioms.ltb_spec, zero_sf. unfold SFleb, SFltb.
  destruct (Prim2SF w) as [s|s| |s m e] eqn:E; simpl; try discriminate;
    try (destruct s; discriminate).
  intros _ _. rewrite <- (SF2Prim_Prim2SF w), E.
  destruct s; [right|left]; reflexivity.
Qed.

Lemma clamp01_range (w : float) :
  PrimFloat.leb 0 (clamp01 w) = true /\ PrimFloat.leb (clamp01 w) 1 = true.
Proof.
  unfold clamp01, py_min2.
  destruct (PrimFloat.ltb w 1) eqn:H1; [|split; reflexivity].
  unfold py_max2. destruct (PrimFloat.ltb 0 w) eqn:H0.
  - split; now apply ltb_leb.
  - split; reflexivity.
Qed.

Lemma clamp01_above (w : float) :
  PrimFloat.ltb 1 w = true -> clamp01 w = 1%float.
Proof.
  intros H. unfold clamp01, py_min2. now rewrite (ltb_asym _ _ H).
Qed.

Lemma clamp01_below (w : float) :
  PrimFloat.ltb w 0 = true -> clamp01 w = 0%float.
Proof.
  intros H. unfold clamp01, py_min2, py_max2.
  rewrite (below_zero_below_one _ H). now rewrite (ltb_asym _ _ H).
Qed.

Lemma clamp01_inside (w : float) :
  PrimFloat.leb 0 w = true -> PrimFloat.leb w 1 = true ->
  PrimFloat.eqb (clamp01 w) w = true /\ (w <> neg_zero -> clamp01 w = w).
Proof.
  intros H0 H1. unfold clamp01, py_min2.
  destruct (PrimFloat.ltb w 1) eqn:L1.
  - unfold py_max2. destruct (PrimFloat.ltb 0 w) eqn:L0.
    + split; [|reflexivity].
      rewrite FloatAxioms.eqb_spec. apply SFeqb_refl. intros Hnan.
      rewrite FloatAxioms.ltb_spec, Hnan, zero_sf in L0. discriminate.
    + destruct (leb_not_ltb_zero w H0 L0) as [->| ->].
      * split; reflexivity.
      * split; [reflexivity|congruence].
  - rewrite (leb_not_ltb_one w H1 L1). split; reflexivity.
Qed.
End FloatFacts.

(** ** Tables and [INSERT OR IGNORE] *)

Section TableFacts.
Context {K V : Type} `{EqDecision K}.
Implicit Types (k : K) (v : V) (t rows : table K V).

Lemma has_key_row_of k t : has_key k t = true <-> is_Some (row_of k t).
Proof.
  induction t as [|[k' v'] t IH]; simpl.
  - split; [discriminate|intros [? ?]; discriminate].
  - destruct (bool_decide (k' = k)); simpl; [|exact IH].
    split; eauto.
Qed.


Lemma row_of_app k t rows :
  row_of k (t ++ rows) =
  match row_of k t with Some v => Some v | None => row_of k rows end.
Proof.
  induction t as [|[k' v'] t IH]; simpl; [reflexivity|].
  now destruct (bool_decide (k' = k)).
Qed.

Lemma row_of_insert_or_ignore k k' v t :
  row_of k' (insert_or_ignore k v t) =
  match row_of k' t with
  | Some v' => Some v'
  | None => if bool_decide (k = k') then Some v else None
  end.
Proof.
  unfold insert_or_ignore. destruct (has_key k t) eqn:E.
  - destruct (row_of k' t) eqn:E'; [reflexivity|].
    case_bool_decide; [subst|reflexivity].
    apply has_key_row_of in E. destruct E as [? E]. congruence.
  - rewrite row_of_app. simpl. reflexivity.
Qed.

Lemma row_of_insert_all k rows t :
  row_of k (insert_all rows t) =
  match row_of k t with Some v => Some v | None => row_of k rows end.
Proof.
  unfold insert_all. revert t.
  induction rows as [|[k' v'] rows IH]; intros t; simpl.
  - now destruct (row_of k t).
  - rewrite IH, row_of_insert_or_ignore.
    destruct (row_of k t); [reflexivity|].
    now destruct (bool_decide (k' = k)).
Qed.

(** Rows already present are neither altered nor displaced. *)
Lemma insert_all_keeps k v rows t :
  row_of k t = Some v -> row_of k (insert_all rows t) = Some v.
Proof. intros E. now rewrite row_of_insert_all, E. Qed.

Lemma insert_or_ignore_present k v t :
  has_key k t = true -> insert_or_ignore k v t = t.
Proof. unfold insert_or_ignore. now intros ->. Qed.

Lemma insert_all_present rows t :
  (forall r, In r rows -> has_key (fst r) t = true) ->
  insert_all rows t = t.
Proof.
  unfold insert_all. induction rows as [|r rows IH]; simpl; intros Hall;
    [reflexivity|].
  rewrite insert_or_ignore_present by (apply Hall; now left).
  apply IH. intros r' Hr'. apply Hall. now right.
Qed.

Lemma has_key_insert_all k rows t :
  has_key k (insert_all rows t) = true <->
  has_key k t = true \/ has_key k rows = true.
Proof.
  rewrite !has_key_row_of, row_of_insert_all.
  destruct (row_of k t) as [v|]; split; eauto.
  - intros [[? ?]|?]; [discriminate|assumption].
Qed.

Lemma In_has_key k v rows : In (k, v) rows -> has_key k rows = true.
Proof.
  induction rows as [|[k' v'] rows IH]; simpl; [tauto|].
  intros [E|Hin].
  - inversion E; subst. now rewrite bool_decide_eq_true_2.
  - rewrite IH by assumption. apply orb_true_r.
Qed.

(** Running the same inserts again changes nothing. *)
Lemma insert_all_idempotent rows t :
  insert_all rows (insert_all rows t) = insert_all rows t.
Proof.
  apply insert_all_present. intros [k v] Hin. simpl.
  apply has_key_insert_all. right. eapply In_has_key; eauto.
Qed.

Lemma insert_all_app rows1 rows2 t :
  insert_all (rows1 ++ rows2) t = insert_all rows2 (insert_all rows1 t).
Proof. unfold insert_all. apply fold_left_app. Qed.

Lemma keys_insert_or_ignore k v t :
  NoDup (List.map fst t) ->
  NoDup (List.map fst (insert_or_ignore k v t)).
Proof.
  intros Hnd. unfold insert_or_ignore. destruct (has_key k t) eqn:E;
    [assumption|].
  rewrite List.map_app. simpl.
  apply NoDup_app. split; [assumption|].
  split; [|apply NoDup_singleton].
  intros k' Hin Hk. apply list_elem_of_singleton in Hk. subst k'.
  apply list_elem_of_In, in_map_iff in Hin. destruct Hin as [[k2 v2] [E2 Hin]].
  simpl in E2. subst k2. apply In_has_key in Hin. congruence.
Qed.

(** The primary key stays a key: no row is duplicated. *)
Lemma keys_insert_all rows t :
  NoDup (List.map fst t) ->
  NoDup (List.map fst (insert_all rows t)).
Proof.
  unfold insert_all. revert t.
  induction rows as [|r rows IH]; intros t Hnd; simpl; [assumption|].
  apply IH. now apply keys_insert_or_ignore.
Qed.
End TableFacts.

(** ** The record loop *)

Section RecordLoop.
Variable X : externals.

Lemma add_entries_nil (st : mig_state) : add_entries [] st = st.
Proof. destruct st. unfold add_entries. simpl. now rewrite app_nil_r. Qed.

Lemma add_entries_cons t l (st : mig_state) :
  add_entries l (append_entry t st) = add_entries (t :: l) st.
Proof.
  destruct st. unfold add_entries, append_entry. simpl.
  now rewrite <- app_assoc.
Qed.

Lemma json_float_raises (j : json) (e : exn) :
  json_float X j = Raise e ->
  e = TypeError \/ e = ValueError \/ e = OverflowError.
Proof.
  destruct j; simpl; try (intros [= <-]; tauto).
  - unfold float_of_Z. destruct (binary_normalize _ _ _ _ _);
      intros [= <-]; tauto.
  - destruct (float_of_str X s); intros [= <-]; tauto.
Qed.

(** Only an [OverflowError] leaves the loop over the items. *)
Lemma entries_of_items_raises memory_id items e :
  snd (entries_of_items X memory_id items) = Raise e -> e = OverflowError.
Proof.
  induction items as [|[target_id weight] items IH]; simpl; [discriminate|].
  destruct (json_float X weight) as [w|e'] eqn:Ej.
  - destruct (entries_of_items X memory_id items). exact IH.
  - destruct (json_float_raises _ _ Ej) as [->|[->| ->]]; simpl; try exact IH.
    now intros [= <-].
Qed.

Lemma for_each_coact_item memory_id items (st : mig_state) :
  St.for_each items (coact_item X memory_id) st =
  (add_entries (fst (entries_of_items X memory_id items)) st,
   snd (entries_of_items X memory_id items)).
Proof.
  revert st. induction items as [|[target_id weight] items IH]; intros st.
  - simpl. now rewrite add_entries_nil.
  - cbn [St.for_each entries_of_items]. unfold St.bind at 1.
    unfold coact_item, St.try_except, St.bind, St.lift, St.modify, St.ret.
    destruct (json_float X weight) as [w|e].
    + rewrite IH. destruct (entries_of_items X memory_id items) as [l r].
      simpl. now rewrite add_entries_cons.
    + destruct (caught_by e [TypeError; ValueError]).
      * apply IH.
      * simpl. now rewrite add_entries_nil.
Qed.

Lemma extract_coactivation_entries (rec : record) (st : mig_state) :
  extract_coactivation X (rec_id rec) (coact_raw_of rec) st =
  (add_entries (fst (entries_of X rec)) st, snd (entries_of X rec)).
Proof.
  unfold extract_coactivation, entries_of.
  destruct (coact_raw_of rec) as [s|z|f].
  - destruct (truthy (PStr s)); [|simpl; now rewrite add_entries_nil].
    unfold St.try_except, St.bind, St.ret, St.raise.
    destruct (json_loads X s) as [j|]; [|simpl; now rewrite add_entries_nil].
    destruct j; try (simpl; now rewrite add_entries_nil).
    rewrite for_each_coact_item.
    destruct (snd (entries_of_items X (rec_id rec) items)) as [u|e] eqn:Er;
      [reflexivity|].
    now rewrite (entries_of_items_raises _ _ _ Er).
  - destruct (truthy (PInt z)); simpl; now rewrite add_entries_nil.
  - destruct (truthy (PFloat f)); simpl; now rewrite add_entries_nil.
Qed.

(** One iteration: either the extraction raises, or the record is
    inserted or skipped with a warning. *)
Lemma migrate_record_step (rec : record) (st : mig_state) :
  migrate_record X rec st =
  match snd (entries_of X rec) with
  | Ok _ => (record_step X st rec, Ok tt)
  | Raise e => (add_entries (fst (entries_of X rec)) st, Raise e)
  end.
Proof.
  unfold migrate_record, St.bind at 1. rewrite extract_coactivation_entries.
  destruct (snd (entries_of X rec)) as [[]|e]; [|reflexivity].
  unfold record_step, St.try_except_all, St.bind, St.lift, St.modify.
  now destruct (row_of_record X rec).
Qed.

Lemma record_loop_result records (st : mig_state) :
  snd (St.for_each records (migrate_record X) st) = loop_result X records.
Proof.
  revert st. induction records as [|rec records IH]; intros st; simpl;
    [reflexivity|].
  unfold St.bind. rewrite migrate_record_step.
  destruct (snd (entries_of X rec)) as [[]|e]; [apply IH|reflexivity].
Qed.

Lemma record_loop_ok records (st : mig_state) :
  loop_result X records = Ok tt ->
  St.for_each records (migrate_record X) st =
  (fold_left (record_step X) records st, Ok tt).
Proof.
  revert st. induction records as [|rec records IH]; intros st; simpl;
    [reflexivity|].
  unfold St.bind. rewrite migrate_record_step.
  destruct (snd (entries_of X rec)) as [[]|e]; [apply IH|discriminate].
Qed.

(** Whatever happens in the loop, nothing is committed by it. *)
Lemma record_loop_committed records (st : mig_state) :
  committed (fst (St.for_each records (migrate_record X) st)) = committed st.
Proof.
  revert st. induction records as [|rec records IH]; intros st; simpl;
    [reflexivity|].
  unfold St.bind. rewrite migrate_record_step.
  destruct (snd (entries_of X rec)) as [[]|e]; [|reflexivity].
  rewrite IH. unfold record_step. now destruct (row_of_record X rec).
Qed.

(** *** The state after a loop that does not raise *)

Lemma fold_record_step records (st : mig_state) :
  fold_left (record_step X) records st =
  {| conn := set_memories (insert_all (memory_rows_of X records)) (conn st);
     committed := committed st;
     model_cache := model_cache st;
     memory_ids_in_dest := ids_of X records ∪ memory_ids_in_dest st;
     coactivation_entries :=
       coactivation_entries st ++ all_entries_of X records;
     docs_to_embed :=
       docs_to_embed st
       ++ List.map (doc_to_embed_of_record X) (valid_of X records);
     valid_records := valid_records st ++ valid_of X records;
     coa_inserted := coa_inserted st; ep_inserted := ep_inserted st;
     stdout := stdout st ++ warnings_of X records |}.
Proof.
  revert st. induction records as [|rec records IH]; intros st.
  - destruct st as [[] ? ? ? ? ? ? ? ? ?]. simpl.
    unfold ids_of, set_memories. simpl.
    rewrite !app_nil_r. f_equal. set_solver.
  - simpl. rewrite IH. clear IH.
    unfold record_step, ids_of, valid_of, is_valid, memory_rows_of,
      all_entries_of, warnings_of.
    simpl. destruct (row_of_record X rec) as [row|e]; simpl.
    + rewrite <- !app_assoc. simpl.
      f_equal; try (now destruct (conn st)). set_solver.
    + rewrite <- !app_assoc. simpl. reflexivity.
Qed.
End RecordLoop.

(** ** Embeddings, the graph, the episodes *)

Section Stages.
Variable X : externals.
Variable st_importable : bool.

Lemma fold_insert_embedding ids pairs (t : table string (list Byte.byte)) :
  fold_left (insert_embedding X ids) pairs t =
  insert_all (embedding_rows_of_batch X ids pairs) t.
Proof.
  unfold embedding_rows_of_batch, insert_all. revert t.
  induction pairs as [|rv pairs IH]; intros t; simpl; [reflexivity|].
  unfold insert_embedding at 2.
  destruct (bool_decide (rec_id (fst rv) ∈ ids)); simpl; apply IH.
Qed.

(** With the model in the cache, a batch cannot raise. *)
Lemma embed_batch_loaded total i (st : mig_state) :
  embedding_model X ∈ model_cache st ->
  embed_batch X st_importable total i st = (embed_step X total st i, Ok tt).
Proof.
  intros Hin.
  unfold embed_batch, embed_step, St.bind, with_cache, E5.call,
    E5._load_model, St.bind, St.ret, St.modify.
  rewrite bool_decide_eq_true_2 by assumption.
  destruct st as [c ? ? ? ? ? ? ? ? ?]. simpl.
  unfold print, commit, set_conn, set_embeddings, batch_vecs_of. simpl.
  now rewrite fold_insert_embedding.
Qed.

Lemma embed_loop_loaded total idxs (st : mig_state) :
  embedding_model X ∈ model_cache st ->
  St.for_each idxs (embed_batch X st_importable total) st =
  (fold_left (embed_step X total) idxs st, Ok tt).
Proof.
  revert st. induction idxs as [|i idxs IH]; intros st Hin; simpl;
    [reflexivity|].
  unfold St.bind. rewrite embed_batch_loaded by assumption.
  apply IH. exact Hin.
Qed.

Lemma fold_embed_step total idxs (st : mig_state) :
  committed st = conn st ->
  let rows :=
    List.flat_map
      (fun i => embedding_rows_of_batch X (memory_ids_in_dest st)
                  (batch_vecs_of X (valid_records st) (docs_to_embed st) i))
      idxs in
  fold_left (embed_step X total) idxs st =
  {| conn := set_embeddings (insert_all rows) (conn st);
     committed := set_embeddings (insert_all rows) (conn st);
     model_cache := model_cache st;
     memory_ids_in_dest := memory_ids_in_dest st;
     coactivation_entries := coactivation_entries st;
     docs_to_embed := docs_to_embed st; valid_records := valid_records st;
     coa_inserted := coa_inserted st; ep_inserted := ep_inserted st;
     stdout :=
       stdout st
       ++ List.map
            (fun i => PrintEmbeddingsDone (Nat.min (i + batch_size) total)
                        total)
            idxs |}.
Proof.
  revert st. induction idxs as [|i idxs IH]; intros st Hc; simpl.
  - destruct st as [[] ? ? ? ? ? ? ? ? ?]. simpl in *. subst.
    unfold set_embeddings. simpl. now rewrite app_nil_r.
  - rewrite IH by reflexivity. clear IH.
    destruct st as [[] ? ? ? ? ? ? ? ? ?]. simpl in *.
    unfold set_embeddings. simpl.
    rewrite insert_all_app, <- app_assoc. reflexivity.
Qed.

Lemma fold_insert_coactivation ids entries
    (t : table (string * string) float) (n : nat) :
  fold_left (insert_coactivation ids) entries (t, n) =
  (insert_all (coactivation_rows_of ids entries) t,
   (n + length (coactivation_rows_of ids entries))%nat).
Proof.
  unfold coactivation_rows_of, insert_all. revert t n.
  induction entries as [|[[s tg] w] entries IH]; intros t n; simpl.
  - now rewrite Nat.add_0_r.
  - change (bool_decide (s ∈ ids) && bool_decide (tg ∈ ids))
      with (admitted ids (s, tg, w)).
    destruct (admitted ids (s, tg, w)); simpl.
    + rewrite IH. f_equal. lia.
    + apply IH.
Qed.

Lemma reconcile_rows (st : mig_state) :
  let rows :=
    coactivation_rows_of (memory_ids_in_dest st) (coactivation_entries st) in
  reconcile st =
  print (PrintInsertedCoactivation (length rows))
    (commit
       (set_coa_inserted (length rows)
          (set_conn (set_coactivation (insert_all rows)) st))).
Proof.
  unfold reconcile. rewrite fold_insert_coactivation. simpl.
  destruct st as [[] ? ? ? ? ? ? ? ? ?]. reflexivity.
Qed.

Lemma migrate_episode_step (rec : record) (st : mig_state) :
  migrate_episode X rec st = (episode_step X st rec, Ok tt).
Proof.
  unfold migrate_episode, episode_step, St.try_except_all, St.bind, St.lift,
    St.modify.
  now destruct (episode_values X rec).
Qed.

Lemma episode_loop ep_records (st : mig_state) :
  St.for_each ep_records (migrate_episode X) st =
  (fold_left (episode_step X) ep_records st, Ok tt).
Proof.
  revert st. induction ep_records as [|rec recs IH]; intros st; simpl;
    [reflexivity|].
  unfold St.bind. rewrite migrate_episode_step. apply IH.
Qed.

Lemma fold_episode_step_conn ep_records (st : mig_state) :
  conn (fold_left (episode_step X) ep_records st) =
  set_episodes (insert_all (episode_rows_of X ep_records)) (conn st).
Proof.
  revert st. induction ep_records as [|rec recs IH]; intros st; simpl.
  - now destruct (conn st).
  - rewrite IH. unfold episode_step, episode_rows_of. simpl.
    destruct (episode_values X rec); simpl; now destruct (conn st).
Qed.

(** The episode stage ends committed, whatever its records. *)
Lemma migrate_episodes_run ep_records (st : mig_state) :
  exists st',
    migrate_episodes X ep_records st = (st', Ok tt)
    /\ conn st' = set_episodes (insert_all (episode_rows_of X ep_records))
                    (conn st)
    /\ committed st' = conn st'.
Proof.
  unfold migrate_episodes, St.bind, St.modify. rewrite episode_loop.
  eexists. split; [reflexivity|]. simpl.
  rewrite fold_episode_step_conn. split; reflexivity.
Qed.
End Stages.

(** ** The memories collection as a whole *)

Section Memories.
Variable X : externals.
Variable st_importable : bool.

(** An exception in the record loop ends the stage with nothing
    committed. *)
Lemma migrate_memories_raises records (st : mig_state) (e : exn) :
  loop_result X records = Raise e ->
  exists st',
    migrate_memories X st_importable records st = (st', Raise e)
    /\ committed st' = committed st.
Proof.
  intros Hr. unfold migrate_memories, St.bind at 1 2 3, St.modify at 1 2.
  pose proof (record_loop_result X records
                (reset_lists (print (PrintMigrating (length records)) st)))
    as Hres.
  pose proof (record_loop_committed X records
                (reset_lists (print (PrintMigrating (length records)) st)))
    as Hcom.
  destruct (St.for_each records (migrate_record X) _) as [st' r].
  simpl in Hres, Hcom. rewrite Hr in Hres. subst r.
  exists st'. split; [reflexivity|exact Hcom].
Qed.

Lemma migrate_memories_ok records (st : mig_state) :
  loop_result X records = Ok tt ->
  embedding_model X ∈ model_cache st ->
  let ids := ids_of X records ∪ memory_ids_in_dest st in
  let valids := valid_of X records in
  let docs := List.map (doc_to_embed_of_record X) valids in
  let entries := all_entries_of X records in
  exists st',
    migrate_memories X st_importable records st = (st', Ok tt)
    /\ conn st' =
       {| memories :=
            insert_all (memory_rows_of X records) (memories (conn st));
          embeddings :=
            insert_all (embedding_rows_of X ids valids docs)
                       (embeddings (conn st));
          coactivation :=
            insert_all (coactivation_rows_of ids entries)
                       (coactivation (conn st));
          episodes := episodes (conn st) |}
    /\ committed st' = conn st'
    /\ memory_ids_in_dest st' = ids
    /\ coactivation_entries st' = entries
    /\ valid_records st' = valids
    /\ docs_to_embed st' = docs
    /\ model_cache st' = model_cache st
    /\ exists out1 out2,
         stdout st' = stdout st ++ out1 ++ warnings_of X records ++ out2.
Proof.
  intros Hr Hcache ids valids docs entries.
  unfold migrate_memories, St.bind at 1 2 3, St.modify at 1 2.
  rewrite record_loop_ok by assumption. rewrite fold_record_step.
  unfold St.bind at 1, St.modify at 1. cbn beta iota.
  unfold St.bind at 1.
  rewrite (embed_loop_loaded X st_importable) by exact Hcache.
  rewrite fold_embed_step by reflexivity.
  unfold St.bind, St.modify. rewrite reconcile_rows.
  eexists. split; [reflexivity|].
  cbn [conn committed memory_ids_in_dest coactivation_entries valid_records
       docs_to_embed model_cache stdout print commit set_coa_inserted
       set_conn reset_lists app].
  repeat split.
  - exists [PrintMigrating (length records)]. eexists.
    rewrite <- !app_assoc. reflexivity.
Qed.
End Memories.

(** ** The whole run *)

Section WholeRun.
Variable X : externals.

Lemma apply_empty_plan (d : dest_db) : apply_plan empty_plan d = d.
Proof. now destruct d. Qed.

Lemma memories_stage_run (E : env) (st : mig_state) :
  embedding_model X ∈ model_cache st ->
  committed st = conn st ->
  memory_ids_in_dest st = ∅ ->
  let records := memory_records_of E in
  match loop_result X records with
  | Raise e =>
      exists st', memories_stage X E st = (st', Raise e)
                  /\ committed st' = committed st
  | Ok _ =>
      exists st',
        memories_stage X E st = (st', Ok tt)
        /\ conn st' =
           {| memories :=
                insert_all (memory_rows_of X records) (memories (conn st));
              embeddings :=
                insert_all
                  (embedding_rows_of X (ids_of X records)
                     (valid_of X records)
                     (List.map (doc_to_embed_of_record X)
                        (valid_of X records)))
                  (embeddings (conn st));
              coactivation :=
                insert_all
                  (coactivation_rows_of (ids_of X records)
                     (all_entries_of X records))
                  (coactivation (conn st));
              episodes := episodes (conn st) |}
        /\ committed st' = conn st'
  end.
Proof.
  intros Hcache Hc Hids. unfold memories_stage, memory_records_of.
  destruct (memories_collection_name _) as [n|].
  2:{ simpl. exists st. repeat split; [|assumption].
      destruct (conn st). reflexivity. }
  destruct (negb (String.eqb n "")).
  2:{ simpl. exists st. repeat split; [|assumption].
      destruct (conn st). reflexivity. }
  simpl. destruct (loop_result X _) as [[]|e] eqn:Hr.
  - destruct (migrate_memories_ok X (sentence_transformers_importable E)
                _ st Hr Hcache)
      as (st' & Hrun & Hconn & Hcom & _).
    exists st'. rewrite Hids in Hconn.
    rewrite (right_id_L ∅ (∪)) in Hconn. auto.
  - apply migrate_memories_raises. exact Hr.
Qed.

Lemma episodes_stage_run (E : env) (st : mig_state) :
  committed st = conn st ->
  exists st',
    episodes_stage X E st = (st', Ok tt)
    /\ conn st' =
       set_episodes (insert_all (episode_rows_of X (episode_records_of E)))
         (conn st)
    /\ committed st' = conn st'.
Proof.
  intros Hc. unfold episodes_stage, episode_records_of.
  destruct (existsb _ _).
  - apply migrate_episodes_run.
  - exists st. simpl. repeat split; [|assumption]. now destruct (conn st).
Qed.

Lemma migrate_unfold_proceeds (E : env) (d : dest_db) :
  proceeds E = true ->
  migrate X E d =
  match migrate_body X E (loaded_state X E d) with
  | (st2, Raise e) => outcome_of (Uncaught e) st2
  | (st2, Ok _) => outcome_of Returned st2
  end.
Proof.
  intros Hp. unfold proceeds in Hp.
  apply andb_prop in Hp. destruct Hp as [Hp Hst].
  apply andb_prop in Hp. destruct Hp as [Hp Hans].
  apply andb_prop in Hp. destruct Hp as [Hnp Hch].
  unfold migrate. rewrite Hnp, Hch, Hans, Hst. simpl negb. cbv iota.
  unfold with_cache, E5._load_model.
  rewrite bool_decide_eq_false_2 by set_solver. reflexivity.
Qed.

Lemma migrate_body_run (E : env) (d : dest_db) :
  proceeds E = true ->
  match loop_result X (memory_records_of E) with
  | Raise e =>
      exists st', migrate_body X E (loaded_state X E d) = (st', Raise e)
                  /\ committed st' = d
  | Ok _ =>
      exists st', migrate_body X E (loaded_state X E d) = (st', Ok tt)
                  /\ committed st' = apply_plan (plan_of X E) d
  end.
Proof.
  intros Hp. unfold plan_of. rewrite Hp.
  unfold migrate_body.
  pose proof (memories_stage_run E (loaded_state X E d)) as Hm.
  assert (Hcache : embedding_model X ∈ model_cache (loaded_state X E d))
    by (simpl; set_solver).
  specialize (Hm Hcache eq_refl eq_refl). cbv zeta in Hm.
  destruct (loop_result X (memory_records_of E)) as [[]|e].
  - destruct Hm as (st2 & Hm & Hconn & Hcom).
    destruct (episodes_stage_run E st2 Hcom) as (st3 & He & Hconn3 & Hcom3).
    exists (print PrintComplete st3). split.
    + unfold St.bind at 1. rewrite Hm. unfold St.bind. now rewrite He.
    + simpl. rewrite Hcom3, Hconn3, Hconn. reflexivity.
  - destruct Hm as (st2 & Hm & Hcom). exists st2. split.
    + unfold St.bind at 1. now rewrite Hm.
    + rewrite Hcom. reflexivity.
Qed.

(** How a run that gets past the prompt and the model load ends. *)
Lemma migrate_proceeds (E : env) (d : dest_db) :
  proceeds E = true ->
  match loop_result X (memory_records_of E) with
  | Raise e => how (migrate X E d) = Uncaught e /\ dest (migrate X E d) = d
  | Ok _ => how (migrate X E d) = Returned
            /\ dest (migrate X E d) = apply_plan (plan_of X E) d
  end.
Proof.
  intros Hp. rewrite (migrate_unfold_proceeds E d Hp).
  pose proof (migrate_body_run E d Hp) as Hb.
  destruct (loop_result X (memory_records_of E)) as [[]|e];
    destruct Hb as (st' & -> & Hcom); simpl; auto.
Qed.

(** What a run leaves in the destination is its plan applied. *)
Lemma migrate_dest (E : env) (d : dest_db) :
  dest (migrate X E d) = apply_plan (plan_of X E) d.
Proof.
  destruct (proceeds E) eqn:Hp.
  - pose proof (migrate_proceeds E d Hp) as H.
    unfold plan_of in *. rewrite Hp in *.
    destruct (loop_result X (memory_records_of E)) as [[]|e].
    + apply H.
    + rewrite apply_empty_plan. apply H.
  - unfold plan_of. rewrite Hp, apply_empty_plan.
    unfold proceeds in Hp. unfold migrate.
    destruct (numpy_importable E); [|reflexivity].
    destruct (chroma_sqlite_exists E); [|reflexivity].
    simpl in Hp. simpl negb. cbv iota.
    destruct (String.eqb _ "y"); [|reflexivity].
    simpl in Hp. rewrite Hp. simpl negb. cbv iota.
    unfold with_cache, E5._load_model.
    rewrite bool_decide_eq_false_2 by set_solver. reflexivity.
Qed.
End WholeRun.

(** * Statements of the specification *)

(** Closes a decidable goal by evaluating its decision procedure. *)
Ltac decide_by_computation :=
  refine (bool_decide_unpack _ _); vm_compute; exact I.

(** ** Sanity: the conversions agree with Python on known values *)

Example float_of_Z_rounds_to_even :
  float_of_Z (2 ^ 53 + 1) = Ok 9007199254740992%float
  /\ float_of_Z (2 ^ 53 + 3) = Ok 9007199254740996%float
  /\ float_of_Z (2 ^ 1024 - 2 ^ 970) = Raise OverflowError.
Proof. vm_compute. repeat split. Qed.

Example Z_of_float_truncates :
  Z_of_float 3.7 = Ok 3 /\ Z_of_float (-3.7) = Ok (-3)
  /\ Z_of_float infinity = Raise OverflowError
  /\ Z_of_float nan = Raise ValueError.
Proof. vm_compute. repeat split. Qed.

Example clamp01_of_specials :
  clamp01 nan = 1%float /\ clamp01 infinity = 1%float
  /\ clamp01 neg_infinity = 0%float /\ clamp01 neg_zero = 0%float.
Proof. vm_compute. repeat split. Qed.

Example answer_is_stripped_and_lowered :
  py_lower (py_strip "  Y ") = "y"%string
  /\ py_lower (py_strip "yes") = "yes"%string.
Proof. vm_compute. repeat split. Qed.

(** ** Sanity: the end-to-end scenario of the specification *)

Example end_to_end_scenario :
  let o := migrate sample_externals (sample_env coact_text " Y ") empty_db in
  how o = Returned
  /\ List.map fst (memories (dest o)) = ["id1"; "id2"]%string
  /\ List.map fst (embeddings (dest o)) = ["id1"; "id2"]%string
  /\ coactivation (dest o) = [("id1", "id2", 0.95%float)]%string
  /\ List.map fst (episodes (dest o)) = ["ep1"]%string.
Proof. vm_compute. repeat split. Qed.

(** ** Coactivation weights (C2, C9) *)

(** An entry whose weight fails with [TypeError] or [ValueError] is
    dropped and the loop goes on with the next entry. *)
Lemma coact_item_dropped (X : externals) memory_id target_id weight e
    (st : mig_state) :
  json_float X weight = Raise e -> e <> OverflowError ->
  coact_item X memory_id (target_id, weight) st = (st, Ok tt).
Proof.
  intros Hj Hne.
  unfold coact_item, St.try_except, St.bind, St.lift. rewrite Hj.
  destruct (json_float_raises X _ _ Hj) as [->|[->| ->]];
    [reflexivity|reflexivity|congruence].
Qed.

(** C2: a raw weight that coerces to the float [w] is extracted as [w]
    clamped into [0.0, 1.0]: the result always lies in the range, a
    weight above 1.0 gives 1.0, one below 0.0 gives 0.0, and one in the
    range is kept (as a number; bit for bit unless it is the negative
    zero, which becomes 0.0). Inputs 1.7, -0.3 and 0.95 give 1.0, 0.0
    and 0.95. *)
Theorem coactivation_weight_clamped (X : externals)
    (memory_id target_id : string) (weight : json) (w : float)
    (st : mig_state) :
  json_float X weight = Ok w ->
  coact_item X memory_id (target_id, weight) st
    = (append_entry (memory_id, target_id, clamp01 w) st, Ok tt)
  /\ (PrimFloat.leb 0 (clamp01 w) = true
      /\ PrimFloat.leb (clamp01 w) 1 = true)
  /\ (PrimFloat.ltb 1 w = true -> clamp01 w = 1%float)
  /\ (PrimFloat.ltb w 0 = true -> clamp01 w = 0%float)
  /\ (PrimFloat.leb 0 w = true -> PrimFloat.leb w 1 = true ->
      PrimFloat.eqb (clamp01 w) w = true
      /\ (w <> neg_zero -> clamp01 w = w))
  /\ clamp01 1.7 = 1%float
  /\ clamp01 (-0.3) = 0%float
  /\ clamp01 0.95 = 0.95%float.
Proof.
  intros Hj. split.
  { unfold coact_item, St.try_except, St.bind, St.lift, St.modify.
    rewrite Hj. reflexivity. }
  split; [apply FloatFacts.clamp01_range|].
  split; [apply FloatFacts.clamp01_above|].
  split; [apply FloatFacts.clamp01_below|].
  split; [apply FloatFacts.clamp01_inside|].
  repeat split.
Qed.

Lemma coactivation_weight_clamped_witness :
  coact_item sample_externals "id1" ("id2"%string, JFloat 1.7)
             (initial_state empty_db [])
  = (append_entry ("id1"%string, "id2"%string, clamp01 1.7)
       (initial_state empty_db []), Ok tt).
Proof.
  apply (coactivation_weight_clamped sample_externals "id1" "id2"
           (JFloat 1.7) 1.7 (initial_state empty_db [])).
  reflexivity.
Defined.

(** ** The vector codec (C8) *)

(** C8: a vector of N single-precision floats, each taken as its 32-bit
    pattern, is encoded into exactly 4*N bytes, least significant byte
    first, and decoding the blob gives back the same bit patterns. *)
Theorem vector_round_trip (v : list Z) :
  Forall Vector.is_f32 v ->
  Z.of_nat (length (Vector.encode_vector v)) = 4 * Z.of_nat (length v)
  /\ Vector.decode_vector (Vector.encode_vector v) = Some v
  /\ Vector.encode_vector [1] = [Byte.x01; Byte.x00; Byte.x00; Byte.x00].
Proof.
  intros Hv. split; [apply VectorFacts.length_encode_vector|].
  split; [now apply VectorFacts.decode_encode_vector|reflexivity].
Qed.

Lemma vector_round_trip_witness :
  Z.of_nat (length (Vector.encode_vector sample_vector)) = 32
  /\ Vector.decode_vector (Vector.encode_vector sample_vector)
     = Some sample_vector.
Proof.
  assert (H : Forall Vector.is_f32 sample_vector).
  { unfold sample_vector, Vector.is_f32. repeat constructor; lia. }
  destruct (vector_round_trip sample_vector H) as (Hlen & Hdec & _).
  split; [exact Hlen|exact Hdec].
Defined.

(** ** Exits (C4) *)

(** C4, as stated, fails: declining the prompt ends the process with
    status 0. *)
Lemma declining_exits_with_status_zero :
  py_lower (py_strip (answer (sample_env coact_text "n"))) <> "y"%string
  /\ exit_status
       (how (migrate sample_externals (sample_env coact_text "n") empty_db))
     = 0
  /\ ~ exit_status
         (how (migrate sample_externals (sample_env coact_text "n")
                 empty_db))
       <> 0.
Proof.
  split; [vm_compute; congruence|].
  split; [vm_compute; reflexivity|].
  intros H. apply H. vm_compute. reflexivity.
Qed.

(** C4, amended: the process exits with status 1 and a message when
    numpy or the source's chroma.sqlite3 is missing, and ends on an
    uncaught ImportError (status 1) when sentence-transformers is
    missing; declining the prompt prints "Aborted." and exits with
    status 0. In each of these cases the destination keeps exactly the
    rows it had. *)
Theorem aborted_runs (X : externals) (E : env) (d : dest_db) :
  let o := migrate X E d in
  (numpy_importable E = false ->
     how o = Exited 1 /\ printed o = [PrintImportError] /\ dest o = d)
  /\ (numpy_importable E = true -> chroma_sqlite_exists E = false ->
     how o = Exited 1 /\ printed o = [PrintChromaNotFound] /\ dest o = d)
  /\ (numpy_importable E = true -> chroma_sqlite_exists E = true ->
      py_lower (py_strip (answer E)) <> "y"%string ->
     how o = Exited 0 /\ exit_status (how o) = 0
     /\ last (printed o) = Some PrintAborted /\ dest o = d)
  /\ (numpy_importable E = true -> chroma_sqlite_exists E = true ->
      py_lower (py_strip (answer E)) = "y"%string ->
      sentence_transformers_importable E = false ->
     how o = Uncaught ImportError /\ exit_status (how o) = 1 /\ dest o = d).
Proof.
  cbv zeta. unfold migrate.
  split; [intros ->; repeat split|].
  split; [intros -> ->; repeat split|].
  split.
  - intros -> -> Hn. apply String.eqb_neq in Hn. rewrite Hn.
    repeat split.
  - intros -> -> Hy ->. apply String.eqb_eq in Hy. rewrite Hy. simpl.
    unfold with_cache, E5._load_model.
    rewrite bool_decide_eq_false_2 by set_solver. repeat split.
Qed.

(** ** What one record stores (C5, C6, C7) *)

(** A record that leaves a new row under its id went through the
    insert, with the row its metadata determines. *)
Lemma migrate_record_inserts (X : externals) (rec : record)
    (st st' : mig_state) (row : memory_row) :
  migrate_record X rec st = (st', Ok tt) ->
  row_of (rec_id rec) (memories (conn st)) = None ->
  row_of (rec_id rec) (memories (conn st')) = Some row ->
  row_of_record X rec = Ok row
  /\ valid_records st' = valid_records st ++ [rec]
  /\ docs_to_embed st' = docs_to_embed st ++ [doc_to_embed_of_record X rec]
  /\ memory_ids_in_dest st' = {[rec_id rec]} ∪ memory_ids_in_dest st.
Proof.
  rewrite migrate_record_step.
  destruct (snd (entries_of X rec)) as [[]|e]; [|discriminate].
  intros [= <-]. unfold record_step.
  destruct (row_of_record X rec) as [row'|e]; simpl.
  - intros Hnone. rewrite row_of_insert_or_ignore, Hnone.
    rewrite bool_decide_eq_true_2 by reflexivity.
    intros [= ->]. repeat split.
  - intros -> [=].
Qed.

Lemma row_of_record_fields (X : externals) (rec : record) (row : memory_row) :
  row_of_record X rec = Ok row ->
  content row = original_content_of (meta_of rec) (rec_document rec)
  /\ normalized_content row = normalized_of X (rec_document rec)
  /\ emotion row = meta_get (meta_of rec) "emotion" (PStr "neutral")
  /\ category row = meta_get (meta_of rec) "category" (PStr "daily")
  /\ py_int X (meta_get (meta_of rec) "importance" (PInt 3))
     = Ok (importance row).
Proof.
  unfold row_of_record, memory_values, rbind.
  destruct (py_int X (meta_get _ "importance" _)); [|discriminate].
  destruct (py_int X (meta_get _ "access_count" _)); [|discriminate].
  destruct (py_float X (meta_get _ "novelty_score" _)); [|discriminate].
  destruct (py_float X (meta_get _ "prediction_error" _)); [|discriminate].
  destruct (py_int X (meta_get _ "activation_count" _)); [|discriminate].
  intros [= <-]. simpl. repeat split.
Qed.

Lemma meta_of_lookup (rec : record) (k : string) :
  k <> "coactivation"%string -> meta_of rec !! k = rec_metadata rec !! k.
Proof. intros Hk. unfold meta_of. now rewrite lookup_delete_ne. Qed.

(** C5: a record stored by the run whose metadata has no "importance"
    key is stored with importance 3; with no "emotion" key, with emotion
    "neutral"; with no "category" key, with category "daily". *)
Theorem defaults_of_missing_fields (X : externals) (rec : record)
    (st st' : mig_state) (row : memory_row) :
  migrate_record X rec st = (st', Ok tt) ->
  row_of (rec_id rec) (memories (conn st)) = None ->
  row_of (rec_id rec) (memories (conn st')) = Some row ->
  (rec_metadata rec !! "importance"%string = None -> importance row = 3)
  /\ (rec_metadata rec !! "emotion"%string = None ->
      emotion row = PStr "neutral")
  /\ (rec_metadata rec !! "category"%string = None ->
      category row = PStr "daily").
Proof.
  intros Hrun Hnone Hsome.
  destruct (migrate_record_inserts X rec st st' row Hrun Hnone Hsome)
    as (Hrow & _).
  destruct (row_of_record_fields X rec row Hrow)
    as (_ & _ & Hemo & Hcat & Himp).
  unfold meta_get in *.
  rewrite !meta_of_lookup in * by discriminate.
  repeat split; intros Hk; rewrite Hk in *; simpl in *; congruence.
Qed.

Lemma defaults_of_missing_fields_witness :
  exists row,
    row_of "id7"%string
      (memories
         (conn (fst (migrate_record sample_externals
                       (record_plain "id7" "hello")
                       (initial_state empty_db [])))))
    = Some row
    /\ importance row = 3
    /\ emotion row = PStr "neutral"
    /\ category row = PStr "daily".
Proof.
  pose (rec := record_plain "id7" "hello").
  pose (st := initial_state empty_db []).
  pose (st' := fst (migrate_record sample_externals rec st)).
  assert (Hrun : migrate_record sample_externals rec st = (st', Ok tt))
    by (vm_compute; reflexivity).
  assert (Hnone : row_of (rec_id rec) (memories (conn st)) = None)
    by reflexivity.
  destruct (row_of (rec_id rec) (memories (conn st'))) as [row|] eqn:Hrow;
    [|vm_compute in Hrow; discriminate].
  exists row. split; [exact Hrow|].
  destruct (defaults_of_missing_fields sample_externals rec st st' row
              Hrun Hnone Hrow) as (H1 & H2 & H3).
  split; [apply H1; reflexivity|].
  split; [apply H2; reflexivity|apply H3; reflexivity].
Defined.

(** C6, as stated, fails: a "content" field that is present but empty
    is passed over and the document text is stored. *)
Lemma empty_content_field_is_passed_over :
  rec_metadata record_empty_content !! "content"%string = Some (PStr "")
  /\ exists row,
       row_of "id1"%string
         (memories
            (conn (fst (migrate_record sample_externals record_empty_content
                          (initial_state empty_db [])))))
       = Some row
       /\ content row = PStr "hello"
       /\ content row <> PStr "".
Proof.
  split; [reflexivity|].
  eexists. split; [vm_compute; reflexivity|].
  split; [reflexivity|discriminate].
Qed.

(** C6, amended: the stored content is the metadata's "content" field
    when that field is present and truthy (a non-empty string, a
    non-zero number), and the record's document text otherwise. *)
Theorem stored_content (X : externals) (rec : record)
    (st st' : mig_state) (row : memory_row) :
  migrate_record X rec st = (st', Ok tt) ->
  row_of (rec_id rec) (memories (conn st)) = None ->
  row_of (rec_id rec) (memories (conn st')) = Some row ->
  content row =
  match rec_metadata rec !! "content"%string with
  | Some v => if truthy v then v else PStr (rec_document rec)
  | None => PStr (rec_document rec)
  end.
Proof.
  intros Hrun Hnone Hsome.
  destruct (migrate_record_inserts X rec st st' row Hrun Hnone Hsome)
    as (Hrow & _).
  destruct (row_of_record_fields X rec row Hrow) as (-> & _).
  unfold original_content_of, or_None.
  rewrite meta_of_lookup by discriminate.
  destruct (rec_metadata rec !! "content"%string) as [v|]; [|reflexivity].
  now destruct (truthy v).
Qed.

Lemma stored_content_witness :
  exists row,
    row_of "id1"%string
      (memories
         (conn (fst (migrate_record sample_externals record_empty_content
                       (initial_state empty_db [])))))
    = Some row
    /\ content row = PStr "hello".
Proof.
  pose (rec := record_empty_content).
  pose (st := initial_state empty_db []).
  pose (st' := fst (migrate_record sample_externals rec st)).
  assert (Hrun : migrate_record sample_externals rec st = (st', Ok tt))
    by (vm_compute; reflexivity).
  assert (Hnone : row_of (rec_id rec) (memories (conn st)) = None)
    by reflexivity.
  destruct (row_of (rec_id rec) (memories (conn st'))) as [row|] eqn:Hrow;
    [|vm_compute in Hrow; discriminate].
  exists row. split; [exact Hrow|].
  exact (stored_content sample_externals rec st st' row Hrun Hnone Hrow).
Defined.

(** C7: the stored normalized_content is the normalizer applied to the
    document text, and the empty string for an empty document; the text
    queued for the embedding engine, at the position of the record among
    the inserted ones, is that normalized form, or the stored content
    when the normalized form is empty. *)
Theorem normalized_content_and_embedded_text (X : externals) (rec : record)
    (st st' : mig_state) (row : memory_row) :
  migrate_record X rec st = (st', Ok tt) ->
  row_of (rec_id rec) (memories (conn st)) = None ->
  row_of (rec_id rec) (memories (conn st')) = Some row ->
  normalized_content row
    = (if String.eqb (rec_document rec) "" then ""%string
       else normalize_japanese X (rec_document rec))
  /\ (rec_document rec = ""%string -> normalized_content row = ""%string)
  /\ valid_records st' = valid_records st ++ [rec]
  /\ docs_to_embed st'
     = docs_to_embed st
       ++ [if String.eqb (normalized_content row) "" then content row
           else PStr (normalized_content row)].
Proof.
  intros Hrun Hnone Hsome.
  destruct (migrate_record_inserts X rec st st' row Hrun Hnone Hsome)
    as (Hrow & Hvalid & Hdocs & _).
  destruct (row_of_record_fields X rec row Hrow) as (Hc & Hn & _).
  assert (Hnorm : normalized_content row
                  = (if String.eqb (rec_document rec) "" then ""%string
                     else normalize_japanese X (rec_document rec))).
  { rewrite Hn. unfold normalized_of.
    now destruct (String.eqb (rec_document rec) ""). }
  split; [exact Hnorm|].
  split; [intros Hd; rewrite Hnorm, Hd; reflexivity|].
  split; [exact Hvalid|].
  rewrite Hdocs. unfold doc_to_embed_of_record, doc_to_embed_of.
  rewrite <- Hn, <- Hc.
  now destruct (String.eqb (normalized_content row) "").
Qed.

Lemma normalized_content_and_embedded_text_witness :
  docs_to_embed
    (fst (migrate_record sample_externals (record_plain "id7" "hello")
            (initial_state empty_db [])))
  = [PStr "hello"].
Proof.
  pose (rec := record_plain "id7" "hello").
  pose (st := initial_state empty_db []).
  pose (st' := fst (migrate_record sample_externals rec st)).
  assert (Hrun : migrate_record sample_externals rec st = (st', Ok tt))
    by (vm_compute; reflexivity).
  assert (Hnone : row_of (rec_id rec) (memories (conn st)) = None)
    by reflexivity.
  destruct (row_of (rec_id rec) (memories (conn st'))) as [row|] eqn:Hrow;
    [|vm_compute in Hrow; discriminate].
  destruct (normalized_content_and_embedded_text sample_externals rec st st'
              row Hrun Hnone Hrow) as (Hn & _ & _ & Hd).
  change (docs_to_embed st' = [PStr "hello"]).
  rewrite Hd, Hn. reflexivity.
Defined.

(** ** The graph reconciler (C1) *)

Section RowsFacts.
Context {K V : Type} `{EqDecision K}.

Lemma row_of_In (k : K) (v : V) (t : table K V) :
  row_of k t = Some v -> In (k, v) t.
Proof.
  induction t as [|[k' v'] t IH]; simpl; [discriminate|].
  case_bool_decide; [intros [= ->]; subst; now left|].
  intros Hr. right. now apply IH.
Qed.

Lemma row_of_filter_In (f : K * V -> bool) (k : K) (v : V) (t : table K V) :
  row_of k (List.filter f t) = Some v -> In (k, v) t /\ f (k, v) = true.
Proof.
  intros Hr. apply row_of_In in Hr. now apply filter_In in Hr.
Qed.

Lemma In_filter_row_of (f : K * V -> bool) (k : K) (v : V) (t : table K V) :
  In (k, v) t -> f (k, v) = true -> is_Some (row_of k (List.filter f t)).
Proof.
  intros Hin Hf. apply has_key_row_of. apply (In_has_key k v).
  apply filter_In. now split.
Qed.
End RowsFacts.

Lemma admitted_spec (ids : gset string) (s t : string) (w : float) :
  admitted ids (s, t, w) = true <-> s ∈ ids /\ t ∈ ids.
Proof.
  unfold admitted. simpl. rewrite andb_true_iff.
  now rewrite !bool_decide_eq_true.
Qed.

(** A stage that ends normally had a record loop that ended normally. *)
Lemma migrate_memories_Ok_loop (X : externals) (b : bool) records
    (st st' : mig_state) :
  migrate_memories X b records st = (st', Ok tt) ->
  loop_result X records = Ok tt.
Proof.
  intros Hrun. destruct (loop_result X records) as [[]|e] eqn:Hr;
    [reflexivity|].
  destruct (migrate_memories_raises X b records st e Hr) as (st2 & H2 & _).
  congruence.
Qed.

(** Every edge the stage adds is an extracted triple whose two ids are
    in the set of persisted ids. *)
Lemma new_edges_have_persisted_ends (X : externals) (b : bool)
    (records : list record) (st st' : mig_state) :
  migrate_memories X b records st = (st', Ok tt) ->
  embedding_model X ∈ model_cache st ->
  forall s t w,
    row_of (s, t) (coactivation (conn st)) = None ->
    row_of (s, t) (coactivation (conn st')) = Some w ->
    In (s, t, w) (coactivation_entries st')
    /\ s ∈ memory_ids_in_dest st' /\ t ∈ memory_ids_in_dest st'.
Proof.
  intros Hrun Hcache.
  pose proof (migrate_memories_Ok_loop X b records st st' Hrun) as Hloop.
  destruct (migrate_memories_ok X b records st Hloop Hcache)
    as (st2 & Hrun2 & Hconn & _ & Hids & Hent & _).
  rewrite Hrun in Hrun2. injection Hrun2 as <-.
  rewrite Hconn, Hids, Hent. cbn [coactivation].
  intros s t w Hnone. rewrite row_of_insert_all, Hnone.
  unfold coactivation_rows_of. intros Hr.
  apply row_of_filter_In in Hr. destruct Hr as [Hin Hadm].
  split; [exact Hin|]. now apply admitted_spec in Hadm.
Qed.

(** C1: in a run of the memories stage, an extracted triple leads to a
    stored edge exactly when both its ids are in the set of persisted
    memory ids: every edge the run adds is an extracted triple with both
    ends in the set, every such triple has its edge in the table
    afterwards, rows already there are kept, and no edge added by the
    run mentions an id outside the set. Dropping a triple is not an
    error: the stage ends normally. *)
Theorem coactivation_edges_admitted (X : externals) (b : bool)
    (records : list record) (st st' : mig_state) :
  migrate_memories X b records st = (st', Ok tt) ->
  embedding_model X ∈ model_cache st ->
  let ids := memory_ids_in_dest st' in
  let entries := coactivation_entries st' in
  let before := coactivation (conn st) in
  let after := coactivation (conn st') in
  (forall s t, row_of (s, t) before = None ->
     (is_Some (row_of (s, t) after)
      <-> exists w, In (s, t, w) entries /\ s ∈ ids /\ t ∈ ids))
  /\ (forall s t w, row_of (s, t) before = None ->
        row_of (s, t) after = Some w ->
        In (s, t, w) entries /\ s ∈ ids /\ t ∈ ids)
  /\ (forall s t w, row_of (s, t) before = Some w ->
        row_of (s, t) after = Some w)
  /\ (forall id s t, id ∉ ids -> row_of (s, t) before = None ->
        is_Some (row_of (s, t) after) -> s <> id /\ t <> id).
Proof.
  intros Hrun Hcache.
  pose proof (new_edges_have_persisted_ends X b records st st' Hrun Hcache)
    as Hnew.
  pose proof (migrate_memories_Ok_loop X b records st st' Hrun) as Hloop.
  destruct (migrate_memories_ok X b records st Hloop Hcache)
    as (st2 & Hrun2 & Hconn & _ & Hids & Hent & _).
  rewrite Hrun in Hrun2. injection Hrun2 as <-.
  cbv zeta. split; [|split; [exact Hnew|split]].
  - intros s t Hnone. split.
    + intros [w Hw]. exists w. now apply Hnew.
    + intros (w & Hin & Hs & Ht).
      rewrite Hconn. cbn [coactivation].
      rewrite row_of_insert_all, Hnone.
      rewrite Hids in Hs, Ht. rewrite Hent in Hin.
      unfold coactivation_rows_of. apply (In_filter_row_of _ (s, t) w).
      * exact Hin.
      * now apply admitted_spec.
  - intros s t w Hsome. rewrite Hconn. cbn [coactivation].
    now apply insert_all_keeps.
  - intros id s t Hid Hnone [w Hw].
    destruct (Hnew s t w Hnone Hw) as (_ & Hs & Ht).
    split; intros ->; contradiction.
Qed.

Lemma coactivation_edges_admitted_witness :
  is_Some
    (row_of ("id1"%string, "id2"%string)
       (coactivation
          (conn (fst (migrate_memories sample_externals true scenario_records
                        (loaded_state sample_externals
                           (sample_env coact_text "y") empty_db)))))).
Proof.
  pose (st := loaded_state sample_externals (sample_env coact_text "y")
                empty_db).
  pose (st' := fst (migrate_memories sample_externals true scenario_records
                      st)).
  assert (Hrun : migrate_memories sample_externals true scenario_records st
                 = (st', Ok tt)) by (vm_compute; reflexivity).
  assert (Hcache : embedding_model sample_externals ∈ model_cache st)
    by (decide_by_computation).
  destruct (coactivation_edges_admitted sample_externals true
              scenario_records st st' Hrun Hcache) as (H1 & _).
  apply (H1 "id1"%string "id2"%string); [reflexivity|].
  exists 0.95%float. split; [|split].
  - vm_compute. left. reflexivity.
  - decide_by_computation.
  - decide_by_computation.
Defined.

(** The scenario of the specification in which [id2] fails to migrate:
    the edge from [id1] to [id2] is extracted, and dropped. *)
Example edge_to_failed_record_is_absent :
  let st' :=
    fst (migrate_memories sample_externals true records_target_fails
           (loaded_state sample_externals (sample_env coact_text "y")
              empty_db)) in
  coactivation_entries st' = [("id1", "id2", 0.95%float)]%string
  /\ List.map fst (memories (conn st')) = ["id1"%string]
  /\ coactivation (conn st') = []
  /\ stdout st'
     = [PrintCollections ["memA"; "episodes"]%string; PrintModelLoaded;
        PrintMigrating 2; WarnMemory "id2" ValueError;
        PrintInsertedMemories 1; PrintEmbeddingsDone 1 1;
        PrintEmbeddingsComputed 1; PrintInsertedCoactivation 0].
Proof. vm_compute. repeat split. Qed.

(** ** Records that fail a numeric coercion (C10) *)

Section Skipped.
Variable X : externals.

Lemma numeric_coercion_fails_raises (rec : record) :
  numeric_coercion_fails X rec -> exists e, row_of_record X rec = Raise e.
Proof.
  unfold numeric_coercion_fails, row_of_record, memory_values, rbind.
  cbv zeta.
  destruct (py_int X (meta_get _ "importance" _)) as [?|e1]; [|eauto].
  destruct (py_int X (meta_get _ "access_count" _)) as [?|e2]; [|eauto].
  destruct (py_float X (meta_get _ "novelty_score" _)) as [?|e3]; [|eauto].
  destruct (py_float X (meta_get _ "prediction_error" _)) as [?|e4];
    [|eauto].
  destruct (py_int X (meta_get _ "activation_count" _)) as [?|e5]; [|eauto].
  intros [[e H]|[[e H]|[[e H]|[[e H]|[e H]]]]]; discriminate.
Qed.

Lemma same_id_same_record (records : list record) (r1 r2 : record) :
  NoDup (List.map rec_id records) ->
  In r1 records -> In r2 records -> rec_id r1 = rec_id r2 -> r1 = r2.
Proof.
  induction records as [|r records IH]; simpl; [tauto|].
  intros Hnd. apply NoDup_cons in Hnd. destruct Hnd as [Hnotin Hnd].
  intros [<-|H1] [<-|H2] Hid; try reflexivity.
  - exfalso. apply Hnotin. rewrite Hid. apply list_elem_of_In.
    now apply in_map.
  - exfalso. apply Hnotin. rewrite <- Hid. apply list_elem_of_In.
    now apply in_map.
  - now apply IH.
Qed.

Lemma memory_rows_of_In (records : list record) id row :
  In (id, row) (memory_rows_of X records) ->
  exists r, In r records /\ rec_id r = id /\ row_of_record X r = Ok row.
Proof.
  unfold memory_rows_of. rewrite in_flat_map. intros (r & Hin & Hr).
  exists r. destruct (row_of_record X r) as [row'|e]; simpl in Hr;
    [|contradiction].
  destruct Hr as [[= <- <-]|[]]. auto.
Qed.

Lemma ids_of_elem (records : list record) id :
  id ∈ ids_of X records ->
  exists r, In r records /\ rec_id r = id /\ is_valid X r = true.
Proof.
  unfold ids_of, valid_of. rewrite elem_of_list_to_set, list_elem_of_In.
  rewrite in_map_iff. intros (r & Hid & Hin).
  apply filter_In in Hin. exists r. tauto.
Qed.

Lemma embedding_rows_of_In ids valids docs id bytes :
  In (id, bytes) (embedding_rows_of X ids valids docs) -> id ∈ ids.
Proof.
  unfold embedding_rows_of. rewrite in_flat_map. intros (i & _ & Hin).
  unfold embedding_rows_of_batch in Hin. rewrite in_map_iff in Hin.
  destruct Hin as (rv & [= <- _] & Hin). apply filter_In in Hin.
  destruct Hin as [_ Hin]. now apply bool_decide_eq_true in Hin.
Qed.

Lemma warnings_of_In (records : list record) (rec : record) (e : exn) :
  In rec records -> row_of_record X rec = Raise e ->
  In (WarnMemory (rec_id rec) e) (warnings_of X records).
Proof.
  intros Hin Hr. unfold warnings_of. rewrite in_flat_map.
  exists rec. split; [exact Hin|]. rewrite Hr. now left.
Qed.

(** C10: when a numeric metadata field of a record fails its int() or
    float() coercion, the record is skipped with a warning: it is not
    among the inserted records, no memory row and no embedding row
    appears under its id, its id stays out of the set of persisted ids,
    and the reconciler adds no edge that mentions it. Source ids are
    distinct. *)
Theorem failed_coercion_skips_record (b : bool) (records : list record)
    (st st' : mig_state) (rec : record) :
  migrate_memories X b records st = (st', Ok tt) ->
  embedding_model X ∈ model_cache st ->
  NoDup (List.map rec_id records) ->
  In rec records ->
  numeric_coercion_fails X rec ->
  rec_id rec ∉ memory_ids_in_dest st ->
  (exists e, row_of_record X rec = Raise e
             /\ In (WarnMemory (rec_id rec) e) (stdout st'))
  /\ (~ In rec (valid_records st'))
  /\ (rec_id rec ∉ memory_ids_in_dest st')
  /\ row_of (rec_id rec) (memories (conn st'))
     = row_of (rec_id rec) (memories (conn st))
  /\ row_of (rec_id rec) (embeddings (conn st'))
     = row_of (rec_id rec) (embeddings (conn st))
  /\ (forall s t w,
        row_of (s, t) (coactivation (conn st)) = None ->
        row_of (s, t) (coactivation (conn st')) = Some w ->
        s <> rec_id rec /\ t <> rec_id rec).
Proof.
  intros Hrun Hcache Hnd Hin Hfail Hfresh.
  destruct (numeric_coercion_fails_raises rec Hfail) as [e He].
  pose proof (migrate_memories_Ok_loop X b records st st' Hrun) as Hloop.
  destruct (migrate_memories_ok X b records st Hloop Hcache)
    as (st2 & Hrun2 & Hconn & _ & Hids & Hent & Hvalid & _ & _ & Hout).
  rewrite Hrun in Hrun2. injection Hrun2 as <-.
  assert (Hinvalid : forall r, In r records -> rec_id r = rec_id rec ->
                               is_valid X r = false).
  { intros r Hr Hid.
    rewrite (same_id_same_record records r rec Hnd Hr Hin Hid).
    unfold is_valid. now rewrite He. }
  assert (Hnotid : rec_id rec ∉ memory_ids_in_dest st').
  { rewrite Hids. intros Hel. apply elem_of_union in Hel.
    destruct Hel as [Hel|Hel]; [|contradiction].
    apply ids_of_elem in Hel. destruct Hel as (r & Hr & Hid & Hv).
    rewrite (Hinvalid r Hr Hid) in Hv. discriminate. }
  split; [|split; [|split; [exact Hnotid|split; [|split]]]].
  - exists e. split; [exact He|].
    destruct Hout as (out1 & out2 & ->).
    apply in_or_app. right. apply in_or_app. right.
    apply in_or_app. left. now apply warnings_of_In.
  - rewrite Hvalid. unfold valid_of. rewrite filter_In.
    intros [_ Hv]. rewrite (Hinvalid rec Hin eq_refl) in Hv. discriminate.
  - rewrite Hconn. cbn [memories]. rewrite row_of_insert_all.
    destruct (row_of (rec_id rec) (memories (conn st))); [reflexivity|].
    destruct (row_of (rec_id rec) (memory_rows_of X records)) as [row|] eqn:Hr;
      [|reflexivity].
    apply row_of_In, memory_rows_of_In in Hr.
    destruct Hr as (r & Hr & Hid & Hok).
    pose proof (Hinvalid r Hr Hid) as Hv. unfold is_valid in Hv.
    rewrite Hok in Hv. discriminate.
  - rewrite Hconn. cbn [embeddings]. rewrite row_of_insert_all.
    destruct (row_of (rec_id rec) (embeddings (conn st))); [reflexivity|].
    destruct (row_of (rec_id rec) (embedding_rows_of _ _ _ _))
      as [bytes|] eqn:Hr; [|reflexivity].
    apply row_of_In, embedding_rows_of_In in Hr.
    exfalso. apply Hnotid. now rewrite Hids.
  - intros s t w Hnone Hsome.
    destruct (new_edges_have_persisted_ends X b records st st' Hrun Hcache
                s t w Hnone Hsome) as (_ & Hs & Ht).
    split; intros ->; contradiction.
Qed.
End Skipped.

Lemma failed_coercion_skips_record_witness :
  (rec_id record_bad_importance
   ∉ memory_ids_in_dest
       (fst (migrate_memories sample_externals true records_one_bad
               (loaded_state sample_externals (sample_env coact_text "y")
                  empty_db))))
  /\ row_of (rec_id record_bad_importance)
       (memories
          (conn (fst (migrate_memories sample_externals true records_one_bad
                        (loaded_state sample_externals
                           (sample_env coact_text "y") empty_db)))))
     = None.
Proof.
  pose (st := loaded_state sample_externals (sample_env coact_text "y")
                empty_db).
  pose (st' := fst (migrate_memories sample_externals true records_one_bad
                      st)).
  assert (Hrun : migrate_memories sample_externals true records_one_bad st
                 = (st', Ok tt)) by (vm_compute; reflexivity).
  assert (Hcache : embedding_model sample_externals ∈ model_cache st)
    by (decide_by_computation).
  assert (Hnd : NoDup (List.map rec_id records_one_bad))
    by (decide_by_computation).
  assert (Hin : In record_bad_importance records_one_bad)
    by (right; left; reflexivity).
  assert (Hfail : numeric_coercion_fails sample_externals
                    record_bad_importance)
    by (left; exists ValueError; vm_compute; reflexivity).
  assert (Hfresh : rec_id record_bad_importance ∉ memory_ids_in_dest st)
    by (decide_by_computation).
  destruct (failed_coercion_skips_record sample_externals true
              records_one_bad st st' record_bad_importance
              Hrun Hcache Hnd Hin Hfail Hfresh)
    as (_ & _ & Hid & Hmem & _).
  split; [exact Hid|]. exact Hmem.
Defined.

(** ** Running the pipeline again (C3) *)

Section Rerun.
Variable X : externals.

(** How a run ends does not depend on what the destination holds. *)
Lemma migrate_how (E : env) (d d' : dest_db) :
  how (migrate X E d) = how (migrate X E d').
Proof.
  destruct (proceeds E) eqn:Hp.
  - pose proof (migrate_proceeds X E d Hp) as H.
    pose proof (migrate_proceeds X E d' Hp) as H'.
    destruct (loop_result X (memory_records_of E)) as [[]|e];
      destruct H as [-> _], H' as [-> _]; reflexivity.
  - unfold proceeds in Hp. unfold migrate.
    destruct (numpy_importable E); [|reflexivity].
    destruct (chroma_sqlite_exists E); [|reflexivity].
    simpl in Hp. simpl negb. cbv iota.
    destruct (String.eqb _ "y"); [|reflexivity].
    simpl in Hp. rewrite Hp. simpl negb. cbv iota.
    unfold with_cache, E5._load_model.
    rewrite bool_decide_eq_false_2 by set_solver. reflexivity.
Qed.

Lemma apply_plan_idempotent (p : plan) (d : dest_db) :
  apply_plan p (apply_plan p d) = apply_plan p d.
Proof.
  unfold apply_plan. simpl. now rewrite !insert_all_idempotent.
Qed.

(** C3: running the pipeline a second time on the same source and on
    the destination the first run left changes nothing: the four tables
    are, row for row and in the same number, what they were after the
    first run, and the run ends the same way. A run never alters or
    displaces a row that is already there, and never gives a primary key
    a second row. *)
Theorem migration_idempotent (E : env) (d : dest_db) :
  let d1 := dest (migrate X E d) in
  let d2 := dest (migrate X E d1) in
  d2 = d1
  /\ (length (memories d2) = length (memories d1)
      /\ length (embeddings d2) = length (embeddings d1)
      /\ length (coactivation d2) = length (coactivation d1)
      /\ length (episodes d2) = length (episodes d1))
  /\ how (migrate X E d1) = how (migrate X E d)
  /\ (forall k v, row_of k (memories d) = Some v ->
                  row_of k (memories d1) = Some v)
  /\ (forall k v, row_of k (embeddings d) = Some v ->
                  row_of k (embeddings d1) = Some v)
  /\ (forall k v, row_of k (coactivation d) = Some v ->
                  row_of k (coactivation d1) = Some v)
  /\ (forall k v, row_of k (episodes d) = Some v ->
                  row_of k (episodes d1) = Some v)
  /\ (NoDup (List.map fst (memories d)) ->
      NoDup (List.map fst (memories d1)))
  /\ (NoDup (List.map fst (embeddings d)) ->
      NoDup (List.map fst (embeddings d1)))
  /\ (NoDup (List.map fst (coactivation d)) ->
      NoDup (List.map fst (coactivation d1)))
  /\ (NoDup (List.map fst (episodes d)) ->
      NoDup (List.map fst (episodes d1))).
Proof.
  cbv zeta.
  assert (Hsame : dest (migrate X E (dest (migrate X E d)))
                  = dest (migrate X E d)).
  { rewrite !migrate_dest. apply apply_plan_idempotent. }
  split; [exact Hsame|].
  split; [now rewrite Hsame|].
  split; [apply migrate_how|].
  rewrite migrate_dest. unfold apply_plan. cbn [memories embeddings
    coactivation episodes].
  repeat split; intros; first [now apply insert_all_keeps
                              | now apply keys_insert_all].
Qed.
End Rerun.

(** ** A weight too large for a float (C9) *)

(** C9 fails on this input: the coactivation mapping of [id1] is
    [{"id2": 10^400, "id3": 0.5}]. The weight of ["id2"] fails [float()]
    with an OverflowError, which neither handler catches: the run ends
    on the exception, and nothing at all is stored. Weights that fail
    with a TypeError or a ValueError are dropped as the claim says. *)
Theorem huge_weight_aborts_migration :
  let o := migrate sample_externals (sample_env coact_text_huge "y")
             empty_db in
  json_float sample_externals (JInt (10 ^ 400)) = Raise OverflowError
  /\ how o = Uncaught OverflowError
  /\ exit_status (how o) = 1
  /\ dest o = empty_db
  /\ fst (entries_of sample_externals
            (record_with_coactivation "id1" "hello" coact_text_mixed))
     = [("id1", "id3", 1%float); ("id1", "id5", 0%float)]%string.
Proof. vm_compute. repeat split. Qed.

(** * Further properties of the code *)

(** ** [_read_chroma_collection] *)

Section Reader.

Lemma read_meta_row_key_value (acc : gmap string pyval * string)
    (r : meta_row) :
  read_meta_row acc r =
  if String.eqb (meta_row_key r) "chroma:document"
  then (fst acc, meta_row_document r)
  else match meta_row_value r with
       | Some v => (<[meta_row_key r := v]> (fst acc), snd acc)
       | None => acc
       end.
Proof.
  destruct acc as [m d], r as [[[[i k] s] z] f]. simpl.
  destruct (String.eqb k "chroma:document"); [reflexivity|].
  destruct s, z, f; reflexivity.
Qed.

(** Where a record of the result comes from. *)
Lemma read_record_origin (c : chroma_db) (name : string) (r : record) :
  In r (_read_chroma_collection c name) ->
  exists cid sid row_id,
    In (name, cid) (collections c)
    /\ In (sid, cid, "METADATA"%string) (segments c)
    /\ In (row_id, sid, rec_id r) (chroma_embeddings c)
    /\ rec_metadata r
       = fst (read_meta_rows
                (List.filter (fun m => let '(i, _, _, _, _) := m in
                                       i =? row_id)
                             (embedding_metadata c)))
    /\ rec_document r
       = snd (read_meta_rows
                (List.filter (fun m => let '(i, _, _, _, _) := m in
                                       i =? row_id)
                             (embedding_metadata c))).
Proof.
  unfold _read_chroma_collection.
  destruct (List.find _ (collections c)) as [[n cid]|] eqn:Hc; [|intros []].
  apply find_some in Hc. destruct Hc as [Hcin Hn]. simpl in Hn.
  apply String.eqb_eq in Hn. subst n.
  destruct (List.find _ (segments c)) as [[[sid col] scope]|] eqn:Hs;
    [|intros []].
  apply find_some in Hs. destruct Hs as [Hsin Hs].
  apply andb_prop in Hs. destruct Hs as [Hcol Hscope].
  apply String.eqb_eq in Hcol, Hscope. subst col scope.
  rewrite in_map_iff. intros ([[row_id seg] eid] & Hr & Hin).
  apply filter_In in Hin. destruct Hin as [Hin Hseg].
  apply String.eqb_eq in Hseg. subst seg.
  exists cid, sid, row_id. unfold read_meta_rows.
  destruct (fold_left read_meta_row _ _) as [metadata document].
  subst r. simpl. auto.
Qed.

Lemma read_meta_rows_no_document_key (rows : list meta_row)
    (acc : gmap string pyval * string) :
  fst acc !! "chroma:document"%string = None ->
  fst (fold_left read_meta_row rows acc) !! "chroma:document"%string = None.
Proof.
  revert acc. induction rows as [|r rows IH]; intros acc Hacc; simpl;
    [exact Hacc|].
  apply IH. rewrite read_meta_row_key_value.
  destruct (String.eqb (meta_row_key r) "chroma:document") eqn:Hk;
    [exact Hacc|].
  apply String.eqb_neq in Hk.
  destruct (meta_row_value r); [|exact Hacc].
  simpl. now rewrite lookup_insert_ne.
Qed.

(** X1: a collection name that the source does not hold, or a collection
    without a segment of scope METADATA, gives the empty list. *)
Theorem read_unknown_collection_is_empty (c : chroma_db) (name : string) :
  (~ In name (List.map fst (collections c)) ->
   _read_chroma_collection c name = [])
  /\ ((forall sid cid, In (name, cid) (collections c) ->
         ~ In (sid, cid, "METADATA"%string) (segments c)) ->
      _read_chroma_collection c name = []).
Proof.
  split; intros Hno.
  - unfold _read_chroma_collection.
    destruct (List.find _ (collections c)) as [[n cid]|] eqn:Hc;
      [|reflexivity].
    apply find_some in Hc. destruct Hc as [Hcin Hn]. simpl in Hn.
    apply String.eqb_eq in Hn. subst n.
    exfalso. apply Hno. apply in_map_iff. now exists (name, cid).
  - destruct (_read_chroma_collection c name) as [|r l] eqn:Hr;
      [reflexivity|].
    assert (Hin : In r (_read_chroma_collection c name))
      by (rewrite Hr; now left).
    apply read_record_origin in Hin.
    destruct Hin as (cid & sid & row_id & Hc & Hs & _).
    exfalso. exact (Hno sid cid Hc Hs).
Qed.

(** X2: every record of the result comes from an embedding row bound to
    a METADATA segment of a collection of the requested name, and takes
    its id from that row's [embedding_id]. *)
Theorem read_records_come_from_embedding_rows (c : chroma_db)
    (name : string) (r : record) :
  In r (_read_chroma_collection c name) ->
  exists cid sid row_id,
    In (name, cid) (collections c)
    /\ In (sid, cid, "METADATA"%string) (segments c)
    /\ In (row_id, sid, rec_id r) (chroma_embeddings c).
Proof.
  intros Hin. apply read_record_origin in Hin.
  destruct Hin as (cid & sid & row_id & Hc & Hs & He & _).
  now exists cid, sid, row_id.
Qed.

Lemma read_records_come_from_embedding_rows_witness :
  exists cid sid row_id,
    In ("memA"%string, cid) (collections (sample_chroma coact_text))
    /\ In (sid, cid, "METADATA"%string) (segments (sample_chroma coact_text))
    /\ In (row_id, sid, "id2"%string)
          (chroma_embeddings (sample_chroma coact_text)).
Proof.
  apply (read_records_come_from_embedding_rows (sample_chroma coact_text)
           "memA"
           {| rec_id := "id2"; rec_document := "world";
              rec_metadata := {[ "importance"%string := PInt 5 ]} |}).
  vm_compute. right. left. reflexivity.
Defined.

(** X3: the reserved key "chroma:document" never shows up in the
    metadata of a record: its value is the record's document. *)
Theorem document_key_is_not_metadata (c : chroma_db) (name : string)
    (r : record) :
  In r (_read_chroma_collection c name) ->
  rec_metadata r !! "chroma:document"%string = None.
Proof.
  intros Hin. apply read_record_origin in Hin.
  destruct Hin as (cid & sid & row_id & _ & _ & _ & -> & _).
  unfold read_meta_rows. now apply read_meta_rows_no_document_key.
Qed.

Lemma document_key_is_not_metadata_witness :
  rec_metadata
    {| rec_id := "id2"; rec_document := "world";
       rec_metadata := {[ "importance"%string := PInt 5 ]} |}
    !! "chroma:document"%string = None.
Proof.
  apply (document_key_is_not_metadata (sample_chroma coact_text) "memA").
  vm_compute. right. left. reflexivity.
Defined.
End Reader.

Section ReaderRows.

Lemma fold_read_meta_row_keeps (rows : list meta_row)
    (acc : gmap string pyval * string) (k : string) :
  (forall r, In r rows -> meta_row_key r = k -> meta_row_value r = None) ->
  k <> "chroma:document"%string ->
  fst (fold_left read_meta_row rows acc) !! k = fst acc !! k.
Proof.
  revert acc. induction rows as [|r rows IH]; intros acc Hrows Hk; simpl;
    [reflexivity|].
  rewrite IH; [|intros r' Hr'; apply Hrows; now right|exact Hk].
  rewrite read_meta_row_key_value.
  destruct (String.eqb (meta_row_key r) "chroma:document"); [reflexivity|].
  destruct (meta_row_value r) as [v|] eqn:Hv; [|reflexivity].
  simpl. apply lookup_insert_ne. intros Heq.
  rewrite (Hrows r (or_introl eq_refl) Heq) in Hv. discriminate.
Qed.

Lemma fold_read_meta_row_document (rows : list meta_row)
    (acc : gmap string pyval * string) :
  (forall r, In r rows -> meta_row_key r <> "chroma:document"%string) ->
  snd (fold_left read_meta_row rows acc) = snd acc.
Proof.
  revert acc. induction rows as [|r rows IH]; intros acc Hrows; simpl;
    [reflexivity|].
  rewrite IH; [|intros r' Hr'; apply Hrows; now right].
  rewrite read_meta_row_key_value.
  destruct (String.eqb (meta_row_key r) "chroma:document") eqn:Hk.
  - apply String.eqb_eq in Hk. now apply Hrows in Hk; [|left].
  - now destruct (meta_row_value r).
Qed.

(** X4: under a metadata key stands the value of the last row of that
    key that has a value, taken from its string column if that is set,
    else its int column, else its float column; rows whose three value
    columns are NULL change nothing. A key no row gives a value to is
    absent from the mapping. *)
Theorem metadata_value_is_last_row_with_value (rows1 rows2 : list meta_row)
    (r : meta_row) (v : pyval) (k : string) :
  k <> "chroma:document"%string ->
  (meta_row_key r = k -> meta_row_value r = Some v ->
   (forall r', In r' rows2 -> meta_row_key r' = k ->
               meta_row_value r' = None) ->
   fst (read_meta_rows (rows1 ++ r :: rows2)) !! k = Some v)
  /\ ((forall r', In r' rows1 -> meta_row_key r' = k ->
                  meta_row_value r' = None) ->
      fst (read_meta_rows rows1) !! k = None).
Proof.
  intros Hk. split.
  - intros Hr Hv Hlater. unfold read_meta_rows.
    rewrite fold_left_app. simpl.
    rewrite fold_read_meta_row_keeps by assumption.
    rewrite read_meta_row_key_value.
    rewrite Hr. apply String.eqb_neq in Hk. rewrite Hk, Hv. simpl.
    apply lookup_insert_eq.
  - intros Hnone. unfold read_meta_rows.
    now rewrite fold_read_meta_row_keeps.
Qed.

Lemma metadata_value_is_last_row_with_value_witness :
  fst (read_meta_rows sample_meta_rows) !! "importance"%string
  = Some (PStr "4").
Proof.
  refine (proj1 (metadata_value_is_last_row_with_value
                   [(1, "chroma:document", Some "hello", None, None);
                    (1, "importance", None, Some 2, None)]%string
                   [(1, "importance", None, None, None)]%string
                   (1, "importance", Some "4", Some 9, None)%string
                   (PStr "4") "importance" _) eq_refl eq_refl _).
  - discriminate.
  - intros r' [<-|[]] _. reflexivity.
Defined.

(** X5: the document of a record is the string column of the last row
    of key "chroma:document", the empty string if that column is NULL;
    without such a row the document is the empty string. *)
Theorem document_is_last_document_row (rows1 rows2 : list meta_row)
    (r : meta_row) :
  (meta_row_key r = "chroma:document"%string ->
   (forall r', In r' rows2 ->
               meta_row_key r' <> "chroma:document"%string) ->
   snd (read_meta_rows (rows1 ++ r :: rows2)) = meta_row_document r)
  /\ ((forall r', In r' rows1 ->
                  meta_row_key r' <> "chroma:document"%string) ->
      snd (read_meta_rows rows1) = ""%string).
Proof.
  split.
  - intros Hr Hlater. unfold read_meta_rows.
    rewrite fold_left_app. simpl.
    rewrite fold_read_meta_row_document by assumption.
    rewrite read_meta_row_key_value, Hr. reflexivity.
  - intros Hnone. unfold read_meta_rows.
    now rewrite fold_read_meta_row_document.
Qed.
End ReaderRows.

(** ** [E5EmbeddingFunction] *)

Section E5Facts.
Variable X : externals.

(** X6: a model that has been loaded stays loaded: from then on
    [__call__] and [encode_query] of that model return the model's
    vectors for the prefixed texts and leave the cache as it is, whether
    or not sentence-transformers can still be imported. Loading only
    ever adds the one name to the cache. *)
Theorem loaded_model_is_reused (b : bool) (model_name : string)
    (cache cache' : gset string) :
  E5._load_model b model_name cache = (cache', Ok tt) ->
  model_name ∈ cache'
  /\ cache' = {[model_name]} ∪ cache
  /\ (forall b' input,
        E5.call X b' model_name input cache'
        = (cache',
           Ok (model_encode X model_name
                 (List.map
                    (fun doc => ("passage: " ++ format_value X doc)%string)
                    input))))
  /\ (forall b' texts,
        E5.encode_query X b' model_name texts cache'
        = (cache',
           Ok (model_encode X model_name
                 (List.map (fun t => ("query: " ++ t)%string) texts)))).
Proof.
  unfold E5._load_model. intros Hload.
  assert (Hin : model_name ∈ cache' /\ cache' = {[model_name]} ∪ cache).
  { case_bool_decide as Hc.
    - injection Hload as <-. split; [exact Hc|set_solver].
    - destruct b; [|discriminate].
      injection Hload as <-. split; [set_solver|reflexivity]. }
  destruct Hin as [Hin Heq]. split; [exact Hin|]. split; [exact Heq|].
  split; intros b' l.
  - unfold E5.call, St.bind, St.ret, E5._load_model.
    now rewrite bool_decide_eq_true_2.
  - unfold E5.encode_query, St.bind, St.ret, E5._load_model.
    now rewrite bool_decide_eq_true_2.
Qed.

End E5Facts.

Lemma loaded_model_is_reused_witness :
  E5.call sample_externals false "m" [PStr "hello"] {[ "m"%string ]}
  = ({[ "m"%string ]}, Ok [[0.5%float]]).
Proof.
  destruct (loaded_model_is_reused sample_externals true "m" {[ "m"%string ]}
              {[ "m"%string ]}) as (_ & _ & Hcall & _).
  - unfold E5._load_model. now rewrite bool_decide_eq_true_2 by set_solver.
  - rewrite (Hcall false [PStr "hello"]). reflexivity.
Defined.

(** ** The embedding batches *)

Section Batches.
Context {A : Type}.

Lemma slices_cover (step n : nat) (l : list A) :
  (0 < step)%nat -> (length l <= n * step)%nat ->
  List.concat (List.map (fun k => slice l (k * step) step) (seq 0 n)) = l.
Proof.
  intros Hstep. revert l. induction n as [|n IH]; intros l Hlen.
  - simpl in *. destruct l; [reflexivity|simpl in Hlen; lia].
  - cbn [seq List.map List.concat]. rewrite <- seq_shift, List.map_map.
    unfold slice at 1. simpl drop.
    transitivity (take step l ++ drop step l); [|apply take_drop].
    f_equal.
    transitivity
      (List.concat
         (List.map (fun k => slice (drop step l) (k * step) step)
                   (seq 0 n))).
    + f_equal. apply List.map_ext. intros k. unfold slice.
      rewrite drop_drop. reflexivity.
    + apply IH. rewrite length_drop. lia.
Qed.

Lemma batch_count_covers (total step : nat) :
  (0 < step)%nat ->
  (total <= Nat.div (total + step - 1) step * step)%nat.
Proof.
  intros Hstep.
  pose proof (Nat.div_mod_eq (total + step - 1) step) as Hdm.
  pose proof (Nat.mod_upper_bound (total + step - 1) step) as Hmod.
  nia.
Qed.

Lemma batch_start_in_range (total step k : nat) :
  (0 < step)%nat -> (k < Nat.div (total + step - 1) step)%nat ->
  (k * step < total)%nat.
Proof.
  intros Hstep Hk.
  pose proof (Nat.div_mod_eq (total + step - 1) step) as Hdm.
  nia.
Qed.

Lemma batches_concat (l : list A) :
  List.concat
    (List.map (fun i => slice l i batch_size)
              (py_range_step (length l) batch_size)) = l.
Proof.
  unfold py_range_step, batch_size.
  rewrite List.map_map. apply slices_cover; [lia|].
  apply batch_count_covers. lia.
Qed.

(** X8: the batches cut the list of inserted records into consecutive
    pieces: put one after the other they give the list back, so every
    record is in exactly one batch, in its place; no batch is empty and
    none holds more than 32 records. *)
Theorem batches_partition_the_records (l : list A) :
  List.concat
    (List.map (fun i => slice l i batch_size)
              (py_range_step (length l) batch_size)) = l
  /\ (forall i, In i (py_range_step (length l) batch_size) ->
        (0 < length (slice l i batch_size) <= 32)%nat).
Proof.
  split; [apply batches_concat|].
  unfold py_range_step, batch_size.
  intros i Hi. apply in_map_iff in Hi. destruct Hi as (k & <- & Hk).
  apply in_seq in Hk. destruct Hk as [_ Hk]. simpl in Hk.
  assert (k * 32 < length l)%nat
    by (apply batch_start_in_range; [lia|exact Hk]).
  unfold slice. rewrite length_take, length_drop. lia.
Qed.
End Batches.

(** ** The memories stage: embeddings and edges *)

Section StageFacts.
Variable X : externals.
Variable b : bool.

Lemma In_zip_left {A B : Type} (x : A) (l1 : list A) (l2 : list B) :
  In x l1 -> (length l1 <= length l2)%nat -> exists y, In (x, y) (zip l1 l2).
Proof.
  revert l2. induction l1 as [|a l1 IH]; intros l2 Hin Hlen; [destruct Hin|].
  destruct l2 as [|y l2]; [simpl in Hlen; lia|].
  destruct Hin as [->|Hin].
  - exists y. now left.
  - destruct (IH l2 Hin) as [y' Hy']; [simpl in Hlen; lia|].
    exists y'. now right.
Qed.

Lemma In_slice {A : Type} (x : A) (l : list A) (i n : nat) :
  In x (slice l i n) -> In x l.
Proof.
  unfold slice. intros Hin.
  rewrite <- (take_drop i l). apply in_or_app. right.
  rewrite <- (take_drop n (drop i l)). apply in_or_app. now left.
Qed.

Lemma valid_of_id_in_ids_of (records : list record) (rec : record) :
  In rec (valid_of X records) -> rec_id rec ∈ ids_of X records.
Proof.
  intros Hin. unfold ids_of. apply elem_of_list_to_set, list_elem_of_In.
  now apply in_map.
Qed.

Lemma valid_of_has_memory_row (records : list record) (rec : record) :
  In rec (valid_of X records) ->
  has_key (rec_id rec) (memory_rows_of X records) = true.
Proof.
  unfold valid_of, is_valid. rewrite filter_In. intros [Hin Hv].
  destruct (row_of_record X rec) as [row|e] eqn:Hr; [|discriminate].
  apply (In_has_key _ row). unfold memory_rows_of. apply in_flat_map.
  exists rec. split; [exact Hin|]. rewrite Hr. now left.
Qed.

(** X9: when the model gives one vector for each text it is handed,
    every record the record loop inserted has an embedding row under its
    id once the stage is over. *)
Theorem every_inserted_record_gets_an_embedding (records : list record)
    (st st' : mig_state) :
  migrate_memories X b records st = (st', Ok tt) ->
  embedding_model X ∈ model_cache st ->
  (forall texts,
     length (model_encode X (embedding_model X) texts) = length texts) ->
  forall rec, In rec (valid_records st') ->
    is_Some (row_of (rec_id rec) (embeddings (conn st'))).
Proof.
  intros Hrun Hcache Hmodel rec Hrec.
  pose proof (migrate_memories_Ok_loop X b records st st' Hrun) as Hloop.
  destruct (migrate_memories_ok X b records st Hloop Hcache)
    as (st2 & Hrun2 & Hconn & _ & _ & _ & Hvalid & _).
  rewrite Hrun in Hrun2. injection Hrun2 as <-.
  rewrite Hvalid in Hrec. rewrite Hconn. cbn [embeddings].
  apply has_key_row_of, has_key_insert_all. right.
  set (valids := valid_of X records) in *.
  rewrite <- (batches_concat valids) in Hrec. apply in_concat in Hrec.
  destruct Hrec as (batch & Hbatch & Hin).
  apply in_map_iff in Hbatch. destruct Hbatch as (i & <- & Hi).
  assert (Hlen : (length (slice valids i batch_size)
                  <= length (model_encode X (embedding_model X)
                       (List.map
                          (fun doc =>
                             ("passage: " ++ format_value X doc)%string)
                          (slice (List.map (doc_to_embed_of_record X) valids)
                                 i batch_size))))%nat).
  { rewrite Hmodel, length_map. unfold slice.
    rewrite !length_take, !length_drop, length_map. lia. }
  destruct (In_zip_left rec _ _ Hin Hlen) as [vec Hvec].
  apply (In_has_key _ (vec_bytes_of X vec)).
  unfold embedding_rows_of. apply in_flat_map. exists i.
  split; [exact Hi|].
  unfold embedding_rows_of_batch, batch_vecs_of. apply in_map_iff.
  exists (rec, vec). split; [reflexivity|].
  apply filter_In. split; [exact Hvec|].
  apply bool_decide_eq_true. simpl. apply elem_of_union. left.
  apply valid_of_id_in_ids_of. eapply In_slice. exact Hin.
Qed.

(** X10: the stage leaves no dangling reference. If every id of the set
    of persisted ids had a memories row when the stage began, then at its
    end every id in the set has one, every embedding row the stage added
    belongs to a memory, and both ends of every edge it added are
    memories. *)
Theorem no_dangling_references (records : list record)
    (st st' : mig_state) :
  migrate_memories X b records st = (st', Ok tt) ->
  embedding_model X ∈ model_cache st ->
  (forall id, id ∈ memory_ids_in_dest st ->
              is_Some (row_of id (memories (conn st)))) ->
  (forall id, id ∈ memory_ids_in_dest st' ->
              is_Some (row_of id (memories (conn st'))))
  /\ (forall id, row_of id (embeddings (conn st)) = None ->
        is_Some (row_of id (embeddings (conn st'))) ->
        is_Some (row_of id (memories (conn st'))))
  /\ (forall s t, row_of (s, t) (coactivation (conn st)) = None ->
        is_Some (row_of (s, t) (coactivation (conn st'))) ->
        is_Some (row_of s (memories (conn st')))
        /\ is_Some (row_of t (memories (conn st')))).
Proof.
  intros Hrun Hcache Hinit.
  pose proof (migrate_memories_Ok_loop X b records st st' Hrun) as Hloop.
  destruct (migrate_memories_ok X b records st Hloop Hcache)
    as (st2 & Hrun2 & Hconn & _ & Hids & _).
  rewrite Hrun in Hrun2. injection Hrun2 as <-.
  assert (Hrows : forall id, id ∈ memory_ids_in_dest st' ->
                    is_Some (row_of id (memories (conn st')))).
  { intros id. rewrite Hids, Hconn. cbn [memories]. intros Hid.
    apply has_key_row_of, has_key_insert_all.
    apply elem_of_union in Hid. destruct Hid as [Hid|Hid].
    - right. apply ids_of_elem in Hid.
      destruct Hid as (r & Hr & <- & Hv).
      apply valid_of_has_memory_row. unfold valid_of.
      apply filter_In. now split.
    - left. apply has_key_row_of. now apply Hinit. }
  split; [exact Hrows|split].
  - intros id Hnone Hsome. apply Hrows.
    rewrite Hconn in Hsome. cbn [embeddings] in Hsome.
    rewrite row_of_insert_all, Hnone in Hsome.
    destruct Hsome as [bytes Hsome]. apply row_of_In in Hsome.
    apply embedding_rows_of_In in Hsome. now rewrite Hids.
  - intros s t Hnone [w Hsome].
    destruct (new_edges_have_persisted_ends X b records st st' Hrun Hcache
                s t w Hnone Hsome) as (_ & Hs & Ht).
    split; now apply Hrows.
Qed.

Lemma entries_of_items_clamped (memory_id : string)
    (items : list (string * json)) (s t : string) (w : float) :
  In (s, t, w) (fst (entries_of_items X memory_id items)) ->
  s = memory_id
  /\ exists j w0, In (t, j) items /\ json_float X j = Ok w0
                  /\ w = clamp01 w0.
Proof.
  induction items as [|[target_id weight] items IH];
    cbn [entries_of_items]; [intros []|].
  destruct (json_float X weight) as [w0|e] eqn:Hj.
  - destruct (entries_of_items X memory_id items) as [l r]. simpl in *.
    intros [[= <- <- <-]|Hin].
    + split; [reflexivity|]. exists weight, w0.
      split; [now left|split; [exact Hj|reflexivity]].
    + destruct (IH Hin) as (-> & j & w1 & Hj1 & Hj2 & ->).
      split; [reflexivity|]. exists j, w1.
      split; [now right|split; [exact Hj2|reflexivity]].
  - destruct (caught_by e [TypeError; ValueError]); [|simpl; intros []].
    intros Hin. destruct (IH Hin) as (-> & j & w1 & Hj1 & Hj2 & ->).
    split; [reflexivity|]. exists j, w1.
    split; [now right|split; [exact Hj2|reflexivity]].
Qed.

Lemma entries_of_clamped (rec : record) (s t : string) (w : float) :
  In (s, t, w) (fst (entries_of X rec)) ->
  s = rec_id rec /\ exists w0, w = clamp01 w0.
Proof.
  unfold entries_of.
  destruct (coact_raw_of rec) as [str|z|f]; try (intros []).
  destruct (truthy (PStr str)); [|intros []].
  destruct (json_loads X str) as [[| | | | | |items]|]; try (intros []).
  intros Hin. apply entries_of_items_clamped in Hin.
  destruct Hin as (-> & j & w0 & _ & _ & ->). eauto.
Qed.

(** X11: every edge the stage adds starts at the id of a source record
    and has a weight between 0.0 and 1.0, the bounds the coactivation
    table checks. *)
Theorem added_edges_have_weights_in_range (records : list record)
    (st st' : mig_state) (s t : string) (w : float) :
  migrate_memories X b records st = (st', Ok tt) ->
  embedding_model X ∈ model_cache st ->
  row_of (s, t) (coactivation (conn st)) = None ->
  row_of (s, t) (coactivation (conn st')) = Some w ->
  (PrimFloat.leb 0 w = true /\ PrimFloat.leb w 1 = true)
  /\ exists rec, In rec records /\ rec_id rec = s.
Proof.
  intros Hrun Hcache Hnone Hsome.
  destruct (new_edges_have_persisted_ends X b records st st' Hrun Hcache
              s t w Hnone Hsome) as (Hin & _).
  pose proof (migrate_memories_Ok_loop X b records st st' Hrun) as Hloop.
  destruct (migrate_memories_ok X b records st Hloop Hcache)
    as (st2 & Hrun2 & _ & _ & _ & Hent & _).
  rewrite Hrun in Hrun2. injection Hrun2 as <-.
  rewrite Hent in Hin. unfold all_entries_of in Hin.
  apply in_flat_map in Hin. destruct Hin as (rec & Hrec & Hin).
  apply entries_of_clamped in Hin. destruct Hin as (-> & w0 & ->).
  split; [apply FloatFacts.clamp01_range|]. now exists rec.
Qed.
End StageFacts.

Lemma every_inserted_record_gets_an_embedding_witness :
  is_Some
    (row_of "id2"%string
       (embeddings
          (conn (fst (migrate_memories sample_externals true scenario_records
                        (loaded_state sample_externals
                           (sample_env coact_text "y") empty_db)))))).
Proof.
  pose (st := loaded_state sample_externals (sample_env coact_text "y")
                empty_db).
  pose (st' := fst (migrate_memories sample_externals true scenario_records
                      st)).
  assert (Hrun : migrate_memories sample_externals true scenario_records st
                 = (st', Ok tt)) by (vm_compute; reflexivity).
  assert (Hcache : embedding_model sample_externals ∈ model_cache st)
    by decide_by_computation.
  assert (Hmodel : forall texts,
             length (model_encode sample_externals
                       (embedding_model sample_externals) texts)
             = length texts)
    by (intros texts; apply length_map).
  apply (every_inserted_record_gets_an_embedding sample_externals true
           scenario_records st st' Hrun Hcache Hmodel sample_record_id2).
  vm_compute. right. left. reflexivity.
Defined.

Lemma no_dangling_references_witness :
  is_Some
    (row_of "id1"%string
       (memories
          (conn (fst (migrate_memories sample_externals true scenario_records
                        (loaded_state sample_externals
                           (sample_env coact_text "y") empty_db)))))).
Proof.
  pose (st := loaded_state sample_externals (sample_env coact_text "y")
                empty_db).
  pose (st' := fst (migrate_memories sample_externals true scenario_records
                      st)).
  assert (Hrun : migrate_memories sample_externals true scenario_records st
                 = (st', Ok tt)) by (vm_compute; reflexivity).
  assert (Hcache : embedding_model sample_externals ∈ model_cache st)
    by decide_by_computation.
  assert (Hinit : forall id, id ∈ memory_ids_in_dest st ->
                             is_Some (row_of id (memories (conn st))))
    by (intros id Hid;
        exact (False_ind _ (not_elem_of_empty (C := gset string) id Hid))).
  destruct (no_dangling_references sample_externals true scenario_records
              st st' Hrun Hcache Hinit) as (_ & _ & Hedges).
  apply (Hedges "id1"%string "id2"%string); [reflexivity|].
  exists 0.95%float. vm_compute. reflexivity.
Defined.

Lemma added_edges_have_weights_in_range_witness :
  PrimFloat.leb 0 0.95 = true /\ PrimFloat.leb 0.95 1 = true.
Proof.
  pose (st := loaded_state sample_externals (sample_env coact_text "y")
                empty_db).
  pose (st' := fst (migrate_memories sample_externals true scenario_records
                      st)).
  assert (Hrun : migrate_memories sample_externals true scenario_records st
                 = (st', Ok tt)) by (vm_compute; reflexivity).
  assert (Hcache : embedding_model sample_externals ∈ model_cache st)
    by decide_by_computation.
  apply (added_edges_have_weights_in_range sample_externals true
           scenario_records st st' "id1" "id2" 0.95 Hrun Hcache).
  - reflexivity.
  - vm_compute. reflexivity.
Defined.

(** ** One record: the coactivation value and the nullable columns *)

Section RecordFacts.
Variable X : externals.



(** X13: the coactivation value of a record has no part in its memories
    row nor in the text that is embedded: replacing it changes
    neither. *)
Theorem coactivation_is_kept_out_of_the_row (rec : record) (v : pyval) :
  row_of_record X (with_coactivation v rec) = row_of_record X rec
  /\ doc_to_embed_of_record X (with_coactivation v rec)
     = doc_to_embed_of_record X rec.
Proof.
  unfold row_of_record, doc_to_embed_of_record, meta_of, with_coactivation.
  simpl. rewrite delete_insert_eq. split; reflexivity.
Qed.

Lemma nullable_or_None (x : option pyval) : nullable x = or_None x.
Proof.
  unfold nullable, or_None. destruct x as [[s|z|f]|]; simpl; try reflexivity.
  - destruct (String.eqb s "") eqn:Hs; simpl; [reflexivity|].
    now rewrite Hs.
  - now destruct (negb (z =? 0)).
  - now destruct (negb (PrimFloat.eqb f 0)).
Qed.

Lemma or_None_truthy (x : option pyval) (v : pyval) :
  or_None x = Some v -> truthy v = true.
Proof.
  unfold or_None. destruct x as [u|]; [|discriminate].
  destruct (truthy u) eqn:Hu; [|discriminate]. now intros [= <-].
Qed.

Lemma row_of_record_nullable (rec : record) (row : memory_row) :
  row_of_record X rec = Ok row ->
  episode_id row = or_None (rec_metadata rec !! "episode_id"%string)
  /\ camera_position row
     = or_None (rec_metadata rec !! "camera_position"%string)
  /\ reading row = or_None (rec_metadata rec !! "reading"%string).
Proof.
  unfold row_of_record, memory_values, rbind.
  destruct (py_int X (meta_get _ "importance" _)); [|discriminate].
  destruct (py_int X (meta_get _ "access_count" _)); [|discriminate].
  destruct (py_float X (meta_get _ "novelty_score" _)); [|discriminate].
  destruct (py_float X (meta_get _ "prediction_error" _)); [|discriminate].
  destruct (py_int X (meta_get _ "activation_count" _)); [|discriminate].
  intros [= <-]. simpl. rewrite nullable_or_None.
  rewrite !meta_of_lookup by discriminate. repeat split.
Qed.

(** X14: the nullable columns of a memories row (episode_id,
    camera_position, reading) hold the metadata value when it is
    truthy and NULL otherwise: an empty string or a zero is never stored
    in them. *)
Theorem nullable_memory_columns (rec : record) (row : memory_row) :
  row_of_record X rec = Ok row ->
  (episode_id row = or_None (rec_metadata rec !! "episode_id"%string)
   /\ camera_position row
      = or_None (rec_metadata rec !! "camera_position"%string)
   /\ reading row = or_None (rec_metadata rec !! "reading"%string))
  /\ (forall v, episode_id row = Some v \/ camera_position row = Some v
                \/ reading row = Some v -> truthy v = true)
  /\ episode_id row <> Some (PStr "")
  /\ camera_position row <> Some (PStr "")
  /\ reading row <> Some (PStr "").
Proof.
  intros Hrow.
  destruct (row_of_record_nullable rec row Hrow) as (He & Hc & Hr).
  assert (Htruthy : forall v, episode_id row = Some v
                              \/ camera_position row = Some v
                              \/ reading row = Some v -> truthy v = true).
  { intros v [H|[H|H]]; [rewrite He in H|rewrite Hc in H|rewrite Hr in H];
      now apply or_None_truthy in H. }
  split; [auto|]. split; [exact Htruthy|].
  repeat split; intros H;
    assert (Ht : truthy (PStr "") = true) by (apply Htruthy; auto);
    discriminate.
Qed.
End RecordFacts.


Lemma nullable_memory_columns_witness :
  exists row,
    row_of_record sample_externals
      {| rec_id := "id9"; rec_document := "hello";
         rec_metadata := {[ "episode_id"%string := PStr "" ]} |} = Ok row
    /\ episode_id row = None.
Proof.
  eexists. split; [vm_compute; reflexivity|].
  match goal with
  | |- episode_id ?r = None =>
      destruct (nullable_memory_columns sample_externals
                  {| rec_id := "id9"; rec_document := "hello";
                     rec_metadata := {[ "episode_id"%string := PStr "" ]} |}
                  r) as ((He & _) & _)
  end.
  - vm_compute. reflexivity.
  - rewrite He. reflexivity.
Defined.

(** ** The episodes stage *)

Section EpisodeFacts.
Variable X : externals.

Lemma fold_episode_step (ep_records : list record) (st : mig_state) :
  fold_left (episode_step X) ep_records st =
  {| conn := set_episodes (insert_all (episode_rows_of X ep_records))
                          (conn st);
     committed := committed st;
     model_cache := model_cache st;
     memory_ids_in_dest := memory_ids_in_dest st;
     coactivation_entries := coactivation_entries st;
     docs_to_embed := docs_to_embed st; valid_records := valid_records st;
     coa_inserted := coa_inserted st;
     ep_inserted :=
       (ep_inserted st + length (episode_rows_of X ep_records))%nat;
     stdout := stdout st ++ episode_warnings_of X ep_records |}.
Proof.
  revert st. induction ep_records as [|rec recs IH]; intros st.
  - destruct st as [[] ? ? ? ? ? ? ? ? ?]. simpl.
    unfold set_episodes. simpl. now rewrite app_nil_r, Nat.add_0_r.
  - simpl. rewrite IH. clear IH.
    unfold episode_step, episode_rows_of, episode_warnings_of. simpl.
    destruct (episode_values X rec) as [row|e]; simpl.
    + f_equal; try (now destruct (conn st)); lia.
    + now rewrite <- app_assoc.
Qed.


Lemma episode_rows_of_In (ep_records : list record) id row :
  In (id, row) (episode_rows_of X ep_records) ->
  exists r, In r ep_records /\ rec_id r = id /\ episode_values X r = Ok row.
Proof.
  unfold episode_rows_of. rewrite in_flat_map. intros (r & Hin & Hr).
  exists r. destruct (episode_values X r) as [row'|e]; simpl in Hr;
    [|contradiction].
  destruct Hr as [[= <- <-]|[]]. auto.
Qed.

(** X16: an episode record whose importance fails int() is reported and
    skipped, and the loop goes on: the stage still ends normally, the
    warning names the record, and, the episode ids being distinct, the
    episodes table has under that id what it had before. *)
Theorem episode_with_bad_importance_is_skipped (ep_records : list record)
    (st : mig_state) (rec : record) (e : exn) :
  In rec ep_records ->
  py_int X (meta_get (rec_metadata rec) "importance" (PInt 3)) = Raise e ->
  NoDup (List.map rec_id ep_records) ->
  snd (migrate_episodes X ep_records st) = Ok tt
  /\ In (WarnEpisode (rec_id rec) e)
        (stdout (fst (migrate_episodes X ep_records st)))
  /\ row_of (rec_id rec)
       (episodes (conn (fst (migrate_episodes X ep_records st))))
     = row_of (rec_id rec) (episodes (conn st)).
Proof.
  intros Hin Himp Hnd.
  assert (Hval : episode_values X rec = Raise e).
  { unfold episode_values, rbind. now rewrite Himp. }
  unfold migrate_episodes, St.bind, St.modify. rewrite episode_loop.
  rewrite fold_episode_step. simpl. split; [reflexivity|]. split.
  - apply in_or_app. left. apply in_or_app. right.
    unfold episode_warnings_of. apply in_flat_map. exists rec.
    split; [exact Hin|]. rewrite Hval. now left.
  - rewrite row_of_insert_all.
    destruct (row_of (rec_id rec) (episodes (conn st))); [reflexivity|].
    destruct (row_of (rec_id rec) (episode_rows_of X ep_records))
      as [row|] eqn:Hr; [|reflexivity].
    apply row_of_In, episode_rows_of_In in Hr.
    destruct Hr as (r & Hr & Hid & Hok).
    rewrite (same_id_same_record ep_records r rec Hnd Hr Hin Hid) in Hok.
    congruence.
Qed.

(** X17: an episode row takes its summary from the record's document;
    end_time and location_context hold the metadata value when it is
    truthy and NULL otherwise, so an empty string is never stored in
    them; a missing importance gives 3, a missing emotion "neutral", a
    missing title the empty string. *)
Theorem episode_row_fields (rec : record) (row : episode_row) :
  episode_values X rec = Ok row ->
  ep_summary row = rec_document rec
  /\ ep_end_time row = or_None (rec_metadata rec !! "end_time"%string)
  /\ ep_location_context row
     = or_None (rec_metadata rec !! "location_context"%string)
  /\ ep_end_time row <> Some (PStr "")
  /\ ep_location_context row <> Some (PStr "")
  /\ (rec_metadata rec !! "importance"%string = None ->
      ep_importance row = 3)
  /\ (rec_metadata rec !! "emotion"%string = None ->
      ep_emotion row = PStr "neutral")
  /\ (rec_metadata rec !! "title"%string = None -> ep_title row = PStr "").
Proof.
  unfold episode_values, rbind.
  destruct (py_int X (meta_get _ "importance" _)) as [imp|] eqn:Himp;
    [|discriminate].
  intros [= <-]. simpl. rewrite nullable_or_None.
  split; [reflexivity|]. split; [reflexivity|]. split; [reflexivity|].
  split.
  { intros H. apply or_None_truthy in H. discriminate. }
  split.
  { intros H. apply or_None_truthy in H. discriminate. }
  unfold meta_get in *.
  repeat split; intros Hk; rewrite Hk in *; simpl in *; congruence.
Qed.
End EpisodeFacts.

Lemma episode_with_bad_importance_is_skipped_witness :
  In (WarnEpisode "ep3" ValueError)
     (stdout (fst (migrate_episodes sample_externals
                     [episode_open_ended; episode_bad_importance]
                     (initial_state empty_db [])))).
Proof.
  destruct (episode_with_bad_importance_is_skipped sample_externals
              [episode_open_ended; episode_bad_importance]
              (initial_state empty_db []) episode_bad_importance ValueError)
    as (_ & Hwarn & _).
  - right. left. reflexivity.
  - vm_compute. reflexivity.
  - decide_by_computation.
  - exact Hwarn.
Defined.

Lemma episode_row_fields_witness :
  exists row,
    episode_values sample_externals episode_open_ended = Ok row
    /\ ep_end_time row = None /\ ep_importance row = 3.
Proof.
  destruct (episode_values sample_externals episode_open_ended)
    as [row|e] eqn:Hrow; [|vm_compute in Hrow; discriminate].
  exists row. split; [reflexivity|].
  destruct (episode_row_fields sample_externals episode_open_ended row Hrow)
    as (_ & Hend & _ & _ & _ & Himp & _).
  split; [rewrite Hend; reflexivity|apply Himp; reflexivity].
Defined.

(** ** The whole script, again *)

Section TableFresh.
Context {K V : Type} `{EqDecision K}.


Lemma length_insert_all (rows t : table K V) :
  (length (insert_all rows t) <= length t + length rows)%nat.
Proof.
  unfold insert_all. revert t.
  induction rows as [|[k v] rows IH]; intros t; simpl; [lia|].
  etransitivity; [apply IH|].
  unfold insert_or_ignore. simpl. destruct (has_key k t); [lia|].
  rewrite length_app. simpl. lia.
Qed.
End TableFresh.

Section ScriptFacts.
Variable X : externals.





Lemma no_memories_collection (E : env) :
  (forall n, In n (List.map fst (collections (chroma E))) ->
             n = "episodes"%string) ->
  memory_records_of E = [].
Proof.
  intros Hall. unfold memory_records_of, memories_collection_name.
  destruct (List.find _ _) as [n|] eqn:Hf; [|reflexivity].
  apply find_some in Hf. destruct Hf as [Hin Hn].
  rewrite (Hall n Hin) in Hn. discriminate.
Qed.

Lemma no_episodes_collection (E : env) :
  ~ In "episodes"%string (List.map fst (collections (chroma E))) ->
  episode_records_of E = [].
Proof.
  intros Hno. unfold episode_records_of.
  destruct (existsb _ _) eqn:Hex; [|reflexivity].
  apply existsb_exists in Hex. destruct Hex as (n & Hin & Hn).
  apply String.eqb_eq in Hn. subst n. contradiction.
Qed.

(** X20: when every collection of the source is named "episodes" (or
    there is none) the run leaves memories, embeddings and coactivation
    as they were; when no collection is named "episodes" it leaves
    episodes as it was. *)
Theorem missing_collections_leave_tables_alone (E : env) (d : dest_db) :
  ((forall n, In n (List.map fst (collections (chroma E))) ->
              n = "episodes"%string) ->
   memories (dest (migrate X E d)) = memories d
   /\ embeddings (dest (migrate X E d)) = embeddings d
   /\ coactivation (dest (migrate X E d)) = coactivation d)
  /\ (~ In "episodes"%string (List.map fst (collections (chroma E))) ->
      episodes (dest (migrate X E d)) = episodes d).
Proof.
  rewrite migrate_dest. unfold plan_of. split.
  - intros Hall. rewrite (no_memories_collection E Hall).
    destruct (proceeds E); repeat split.
  - intros Hno. rewrite (no_episodes_collection E Hno).
    destruct (proceeds E); [|reflexivity].
    now destruct (loop_result X (memory_records_of E)).
Qed.

(** X21: the number the stage reports as inserted coactivation weights
    is the number of extracted triples whose two ids are persisted. It
    counts a triple whether or not its insert added a row, so the table
    grows by at most that number. *)
Theorem reported_edge_count (b : bool) (records : list record)
    (st st' : mig_state) :
  migrate_memories X b records st = (st', Ok tt) ->
  embedding_model X ∈ model_cache st ->
  coa_inserted st'
  = length (List.filter (admitted (memory_ids_in_dest st'))
                        (coactivation_entries st'))
  /\ (length (coactivation (conn st'))
      <= length (coactivation (conn st)) + coa_inserted st')%nat
  /\ In (PrintInsertedCoactivation (coa_inserted st')) (stdout st').
Proof.
  intros Hrun Hcache.
  pose proof (migrate_memories_Ok_loop X b records st st' Hrun) as Hloop.
  destruct (migrate_memories_ok X b records st Hloop Hcache)
    as (st2 & Hrun2 & Hconn & _ & Hids & Hent & _).
  rewrite Hrun in Hrun2. injection Hrun2 as <-.
  assert (Hcount : coa_inserted st'
                   = length (coactivation_rows_of (memory_ids_in_dest st')
                               (coactivation_entries st'))
                   /\ In (PrintInsertedCoactivation (coa_inserted st'))
                         (stdout st')).
  { revert Hrun. unfold migrate_memories, St.bind at 1 2 3, St.modify at 1 2.
    rewrite record_loop_ok by assumption. rewrite fold_record_step.
    unfold St.bind at 1, St.modify at 1. cbn beta iota.
    unfold St.bind at 1.
    rewrite (embed_loop_loaded X b) by exact Hcache.
    rewrite fold_embed_step by reflexivity.
    unfold St.bind, St.modify. rewrite reconcile_rows.
    intros [= <-]. simpl. split; [reflexivity|].
    apply in_or_app. right. now left. }
  destruct Hcount as [Hcount Hprint].
  split; [exact Hcount|]. split; [|exact Hprint].
  rewrite Hcount, Hconn, Hids, Hent. cbn [coactivation].
  apply length_insert_all.
Qed.
End ScriptFacts.



Lemma reported_edge_count_witness :
  coa_inserted
    (fst (migrate_memories sample_externals true scenario_records
            (loaded_state sample_externals (sample_env coact_text "y")
               empty_db)))
  = length
      (List.filter
         (admitted
            (memory_ids_in_dest
               (fst (migrate_memories sample_externals true scenario_records
                       (loaded_state sample_externals
                          (sample_env coact_text "y") empty_db)))))
         (coactivation_entries
            (fst (migrate_memories sample_externals true scenario_records
                    (loaded_state sample_externals
                       (sample_env coact_text "y") empty_db))))).
Proof.
  pose (st := loaded_state sample_externals (sample_env coact_text "y")
                empty_db).
  pose (st' := fst (migrate_memories sample_externals true scenario_records
                      st)).
  assert (Hrun : migrate_memories sample_externals true scenario_records st
                 = (st', Ok tt)) by (vm_compute; reflexivity).
  assert (Hcache : embedding_model sample_externals ∈ model_cache st)
    by decide_by_computation.
  exact (proj1 (reported_edge_count sample_externals true scenario_records
                  st st' Hrun Hcache)).
Defined.

(** ** More on the reader, the extraction and the ways a run ends *)

(** X22: when the source has one collection of the requested name and
    that collection one segment of scope METADATA, the result has one
    record for each embedding row bound to that segment, in the order of
    the rows, under the row's [embedding_id]. *)
Theorem read_gives_one_record_per_embedding_row (c : chroma_db)
    (name cid sid : string) :
  In (name, cid) (collections c) ->
  (forall cid', In (name, cid') (collections c) -> cid' = cid) ->
  In (sid, cid, "METADATA"%string) (segments c) ->
  (forall sid', In (sid', cid, "METADATA"%string) (segments c) ->
                sid' = sid) ->
  List.map rec_id (_read_chroma_collection c name)
  = List.map (fun e => snd e)
      (List.filter (fun e => String.eqb (snd (fst e)) sid)
                   (chroma_embeddings c)).
Proof.
  intros Hc Hcu Hs Hsu. unfold _read_chroma_collection.
  destruct (List.find _ (collections c)) as [[n cid']|] eqn:Hfc.
  2:{ exfalso. apply (find_none _ _ Hfc) in Hc. simpl in Hc.
      now rewrite String.eqb_refl in Hc. }
  apply find_some in Hfc. destruct Hfc as [Hin Hn]. simpl in Hn.
  apply String.eqb_eq in Hn. subst n.
  rewrite (Hcu cid' Hin). clear cid' Hin.
  destruct (List.find _ (segments c)) as [[[sid' col] scope]|] eqn:Hfs.
  2:{ exfalso. apply (find_none _ _ Hfs) in Hs. simpl in Hs.
      now rewrite !String.eqb_refl in Hs. }
  apply find_some in Hfs. destruct Hfs as [Hin Hp].
  apply andb_prop in Hp. destruct Hp as [Hcol Hscope].
  apply String.eqb_eq in Hcol, Hscope. subst col scope.
  rewrite (Hsu sid' Hin). clear sid' Hin.
  rewrite List.map_map.
  induction (chroma_embeddings c) as [|[[row_id seg] eid] l IH]; simpl;
    [reflexivity|].
  destruct (String.eqb seg sid); simpl; [|exact IH].
  rewrite IH. f_equal.
  now destruct (fold_left read_meta_row _ _).
Qed.

Lemma read_gives_one_record_per_embedding_row_witness :
  List.map rec_id (_read_chroma_collection (sample_chroma coact_text) "memA")
  = ["id1"; "id2"]%string.
Proof.
  rewrite (read_gives_one_record_per_embedding_row
             (sample_chroma coact_text) "memA" "c1" "s1").
  - reflexivity.
  - left. reflexivity.
  - intros cid' [[= <-]|[[=]|[]]]. reflexivity.
  - right. left. reflexivity.
  - intros sid' [[=]|[[= <-]|[[=]|[]]]]. reflexivity.
Defined.

Section ExtractionFacts.
Variable X : externals.

(** X23: when no weight of a coactivation mapping overflows, the loop
    over its items raises nothing and appends, in the order of the
    mapping, one triple for each item whose weight coerces to a float,
    with the weight clamped; the items whose weight is refused (null, a
    list, text that is no number) leave no trace. *)
Theorem extraction_keeps_the_entries_that_coerce (memory_id : string)
    (items : list (string * json)) (st : mig_state) :
  (forall t j, In (t, j) items -> json_float X j <> Raise OverflowError) ->
  St.for_each items (coact_item X memory_id) st
  = (add_entries
       (List.flat_map
          (fun kv => match json_float X (snd kv) with
                     | Ok w => [(memory_id, fst kv, clamp01 w)]
                     | Raise _ => []
                     end)
          items)
       st,
     Ok tt).
Proof.
  intros Hno. rewrite for_each_coact_item.
  assert (H : entries_of_items X memory_id items
              = (List.flat_map
                   (fun kv => match json_float X (snd kv) with
                              | Ok w => [(memory_id, fst kv, clamp01 w)]
                              | Raise _ => []
                              end)
                   items, Ok tt)).
  { induction items as [|[t j] items IH]; [reflexivity|].
    cbn [entries_of_items List.flat_map fst snd].
    rewrite IH by (intros t' j' Hin; apply (Hno t' j'); now right).
    destruct (json_float X j) as [w|e] eqn:Hj; [reflexivity|].
    destruct (json_float_raises X _ _ Hj) as [->|[->| ->]];
      [reflexivity|reflexivity|].
    exfalso. apply (Hno t j); [now left|exact Hj]. }
  now rewrite H.
Qed.

End ExtractionFacts.

Lemma extraction_keeps_the_entries_that_coerce_witness :
  St.for_each [("id2"%string, JNull); ("id3"%string, JFloat 1.7)]
    (coact_item sample_externals "id1") (initial_state empty_db [])
  = (add_entries [("id1"%string, "id3"%string, 1%float)]
       (initial_state empty_db []), Ok tt).
Proof.
  rewrite (extraction_keeps_the_entries_that_coerce sample_externals "id1").
  - reflexivity.
  - intros t j [[= <- <-]|[[= <- <-]|[]]]; discriminate.
Defined.

